(** * ArcticAI: agent loop, tool results and the planning tool

    A shallow embedding of the TypeScript sources

      - [src/tool/base.ts]       ([ToolResult], [BaseTool])
      - [src/tool/tool-collection.ts], [src/tool/terminate.ts]
      - [src/tool/planning.ts]   ([PlanningTool])
      - [src/schema/*.ts]        ([AgentState], [Message], [Memory])
      - [src/agent/base.ts], [src/agent/react.ts], [src/agent/toolcall.ts]
      - [src/utils/helpers.ts]   ([mergeMessages])
      - [src/flow/base.ts] and the executors of [src/flow/planning.ts]

    Mutable objects become explicit state: a method [m(args)] of a class
    [C] is a function [args -> C -> C * outcome R]; the returned [C] is the
    object after the call, also when the call throws.  A JavaScript [Map]
    is a [gmap] together with the list of its keys in insertion order.

    TypeScript's types are not checked when the code runs.  Where the code
    computes with a value whose declared type admits more than the values
    it is meant for, the embedding keeps them: an [any] is a [jsval], a
    [number] that is compared and used as an index is a [jsnum], a limit or
    a counter is an integer of either sign.  The model provider,
    [JSON.parse] and [String.prototype.toLowerCase] are parameters. *)

From stdpp Require Import base strings list gmap pretty.
From Stdlib Require Import ZArith Lia.

Local Open Scope string_scope.

(** ** JavaScript values, truthiness and exceptions *)

Set Warnings "-register-all,-clear-no-such-hyp".

Module JS.

(** The line feed of the template literals. *)
Definition nl : string := String (Ascii.ascii_of_nat 10) EmptyString.

(** The values [JSON.parse] yields, which are also the values an [any]
    holds here; a number is an integer that a double holds exactly. *)
Inductive jsval : Type :=
| JNull
| JBool (b : bool)
| JNum (n : Z)
| JStr (s : string)
| JArr (l : list jsval)
| JObj (kv : gmap string jsval).

(** [!!v] *)
Definition truthy (v : jsval) : bool :=
  match v with
  | JNull => false
  | JBool b => b
  | JNum n => negb (n =? 0)%Z
  | JStr s => negb (String.eqb s EmptyString)
  | JArr _ | JObj _ => true
  end.

(** [Array.isArray(v)] *)
Definition isArray (v : jsval) : bool :=
  match v with JArr _ => true | _ => false end.

(** [typeof v === "string"] *)
Definition is_string (v : jsval) : bool :=
  match v with JStr _ => true | _ => false end.

Definition elements (v : jsval) : list jsval :=
  match v with JArr l => l | _ => [] end.

(** [v.every((x) => typeof x === "string")] on an array [v]. *)
Definition every_string (v : jsval) : bool := forallb is_string (elements v).

(** The elements of an array of strings, once [every_string] has passed. *)
Definition strings_of (v : jsval) : list string :=
  omap (fun x => match x with JStr s => Some s | _ => None end) (elements v).

(** [String(v)], which is also how a template literal prints [v]. *)
Fixpoint toString (v : jsval) : string :=
  match v with
  | JNull => "null"
  | JBool b => if b then "true" else "false"
  | JNum n => pretty n
  | JStr s => s
  | JArr l =>
      String.concat ","
        (map (fun x => match x with JNull => EmptyString | _ => toString x end) l)
  | JObj _ => "[object Object]"
  end.

(** A [string | null] (or [string | undefined]) is truthy when it is a
    string other than the empty one; [nonempty x = None] is [!x]. *)
Definition nonempty (x : option string) : option string :=
  match x with
  | Some s => if String.eqb s EmptyString then None else Some s
  | None => None
  end.

Definition str_truthy (x : option string) : bool :=
  match nonempty x with Some _ => true | None => false end.

(** [x || y] on [string | null]. *)
Definition str_or (x y : option string) : option string :=
  if str_truthy x then x else y.

(** Exceptions: the classes the sources throw or test with [instanceof]. *)
Inductive ErrorClass : Type := PlainError | ToolError | TypeError.

Record Error : Type := mkError { err_class : ErrorClass; err_message : string }.

Inductive outcome (A : Type) : Type :=
| Returned (a : A)
| Thrown (e : Error).
Global Arguments Returned {A} a.
Global Arguments Thrown {A} e.

(** [l.push(x)] *)
Definition push {A} (l : list A) (x : A) : list A := (l ++ [x])%list.

(** [error.name] and [String(error)]. *)
Definition class_name (c : ErrorClass) : string :=
  match c with
  | PlainError => "Error"
  | ToolError => "ToolError"
  | TypeError => "TypeError"
  end.

Definition error_toString (e : Error) : string :=
  if String.eqb (err_message e) EmptyString then class_name (err_class e)
  else class_name (err_class e) ++ ": " ++ err_message e.

(** [s.toLowerCase()] for a string [s] of ASCII characters.  The method
    itself lowers the letters of every script; the code that calls it takes
    it as a parameter, and the runs on ASCII names pass this function. *)
Definition lower_ascii (c : Ascii.ascii) : Ascii.ascii :=
  let n := Ascii.nat_of_ascii c in
  if bool_decide (65 <= n) && bool_decide (n <= 90) then Ascii.ascii_of_nat (n + 32) else c.

Fixpoint ascii_toLowerCase (s : string) : string :=
  match s with
  | EmptyString => EmptyString
  | String c s => String (lower_ascii c) (ascii_toLowerCase s)
  end.

(** The operands that [+] adds as numbers when it meets no string: [null],
    the booleans and the numbers; an array or an object becomes its string
    first. *)
Definition adds_as_number (v : jsval) : bool :=
  match v with JNull | JBool _ | JNum _ => true | _ => false end.

(** The number such an operand stands for: [null] is 0, [true] is 1. *)
Definition toNumber (v : jsval) : Z :=
  match v with
  | JBool b => if b then 1 else 0
  | JNum n => n
  | _ => 0
  end.

(** [a + b] on two values: the sum when both add as numbers (the integer
    sum, which is what doubles give below 2^53), and the concatenation of
    their strings otherwise. *)
Definition js_plus (a b : jsval) : jsval :=
  if adds_as_number a && adds_as_number b then JNum (toNumber a + toNumber b)
  else JStr (toString a ++ toString b).

(** [a || b] on two values. *)
Definition or_else (a b : jsval) : jsval := if truthy a then a else b.

(** A [string | null] as a value, and back. *)
Definition str_val (x : option string) : jsval :=
  match x with Some s => JStr s | None => JNull end.

Definition val_str (v : jsval) : option string :=
  match v with JStr s => Some s | _ => None end.

(** A number where the code compares it with an integer, prints it and
    uses it as the key of an array element: an integer that prints as its
    digits (one of fewer than 22); any other finite number, by the largest
    integer that is not above it and by the text it prints as; [NaN]; or an
    infinity. *)
Inductive jsnum : Type :=
| NInt (z : Z)
| NReal (whole : Z) (text : string)
| NaN
| NInf (negative : bool).

(** [x < k] and [x >= k] for an integer [k]; every comparison with [NaN]
    is false. *)
Definition num_ltb (x : jsnum) (k : Z) : bool :=
  match x with
  | NInt z => (z <? k)%Z
  | NReal whole _ => (whole <? k)%Z
  | NaN => false
  | NInf negative => negative
  end.

Definition num_geb (x : jsnum) (k : Z) : bool :=
  match x with
  | NInt z => (z >=? k)%Z
  | NReal whole _ => (whole >=? k)%Z
  | NaN => false
  | NInf negative => negb negative
  end.

(** [String(x)], which is also how a template literal prints [x]. *)
Definition num_text (x : jsnum) : string :=
  match x with
  | NInt z => pretty z
  | NReal _ text => text
  | NaN => "NaN"
  | NInf negative => if negative then "-Infinity" else "Infinity"
  end.

(** The element that [arr[x]] names: a number is the index of an element
    when it is an integer that is not negative.  Under any other number
    [arr[x] = v] adds a property that is not an element: the length and the
    elements of the array, which is all this code reads, stay as they are. *)
Definition element_index (x : jsnum) : option nat :=
  match x with
  | NInt z => if (0 <=? z)%Z then Some (Z.to_nat z) else None
  | _ => None
  end.

Definition is_thrown {A} (o : outcome A) : bool :=
  match o with Thrown _ => true | Returned _ => false end.

#[global] Instance ErrorClass_eq_dec : EqDecision ErrorClass.
Proof. solve_decision. Defined.

End JS.

(** ** [src/tool/base.ts] *)

Module Tool.
Import JS.

(** [class ToolResult]: [output] is an [any] ([JNull] is [null]); [error]
    and [system] are a [string | null]. *)
Record ToolResult : Type := mkToolResult {
  output : jsval;
  error : option string;
  system : option string;
}.

(** [new ToolResult(output)] for a text. *)
Definition result_of (out : string) : ToolResult := mkToolResult (JStr out) None None.

(** [new ToolFailure(null, msg)] *)
Definition ToolFailure (msg : string) : ToolResult := mkToolResult JNull (Some msg) None.

(** The local function of [combine], on the values it is handed: its
    parameters are declared [string | null], and [combine] passes it the
    [output]s, which are an [any]. *)
Definition combineFields (field otherField : jsval) (concatenate : bool) : outcome jsval :=
  if truthy field && truthy otherField then
    if concatenate then Returned (js_plus field otherField)
    else Thrown (mkError PlainError "Cannot combine tool results")
  else Returned (or_else field otherField).

(** [combine(other)]: the three calls leave [concatenate] at its default,
    [true]; an exception in an argument aborts the construction.  What the
    function returns for two [string | null] is a [string | null]. *)
Definition combine (self other : ToolResult) : outcome ToolResult :=
  match combineFields (output self) (output other) true with
  | Thrown e => Thrown e
  | Returned o =>
      match combineFields (str_val (error self)) (str_val (error other)) true with
      | Thrown e => Thrown e
      | Returned e =>
          match combineFields (str_val (system self)) (str_val (system other)) true with
          | Thrown e' => Thrown e'
          | Returned s => Returned (mkToolResult o (val_str e) (val_str s))
          end
      end
  end.

(** [hasContent()] *)
Definition hasContent (self : ToolResult) : bool :=
  negb (match output self with JNull => true | _ => false end)
  || bool_decide (error self ≠ None)
  || bool_decide (system self ≠ None).

End Tool.

(** ** [src/tool/planning.ts] *)

Module Planning.
Import JS Tool.

Inductive StepStatus : Type := not_started | in_progress | completed | blocked.

#[global] Instance StepStatus_eq_dec : EqDecision StepStatus.
Proof. solve_decision. Defined.

(** The member test of [markStep],
    [["not_started", "in_progress", "completed", "blocked"].includes(s)],
    together with the value it admits. *)
Definition status_of_string (s : string) : option StepStatus :=
  if String.eqb s "not_started" then Some not_started
  else if String.eqb s "in_progress" then Some in_progress
  else if String.eqb s "completed" then Some completed
  else if String.eqb s "blocked" then Some blocked
  else None.

Record Plan : Type := mkPlan {
  plan_id : string;
  title : string;
  steps : list string;
  step_statuses : list StepStatus;
  step_notes : list string;
}.

(** [class PlanningTool]: the [Map] [plans] (lookups in [plans], the
    insertion order of its keys in [plan_order]) and [currentPlanId]. *)
Record PlanningTool : Type := mkPlanningTool {
  plans : gmap string Plan;
  plan_order : list string;
  currentPlanId : option string;
}.

(** The state the constructor leaves. *)
Definition new_PlanningTool : PlanningTool := mkPlanningTool ∅ [] None.

(** Writing through the reference [this.plans.get(planId)] returns: the
    plan stored under [planId] is replaced, the key keeps its position. *)
Definition store (planId : string) (plan : Plan) (self : PlanningTool) : PlanningTool :=
  mkPlanningTool (<[planId := plan]> (plans self)) (plan_order self) (currentPlanId self).

Definition set_title (t : string) (p : Plan) : Plan :=
  mkPlan (plan_id p) t (steps p) (step_statuses p) (step_notes p).

(** [plan.step_statuses[i] = st], for an index the caller has checked
    against [steps.length]; a stored plan has a status for each step, so
    the write falls within the list. *)
Definition set_status (i : nat) (st : StepStatus) (p : Plan) : Plan :=
  mkPlan (plan_id p) (title p) (steps p) (<[i := st]> (step_statuses p)) (step_notes p).

(** [plan.step_notes[i] = n] *)
Definition set_notes (i : nat) (n : string) (p : Plan) : Plan :=
  mkPlan (plan_id p) (title p) (steps p) (step_statuses p) (<[i := n]> (step_notes p)).

(** The two assignments under a number [x] as [markStep] makes them: on
    the element [x] names, and on no element when [x] names none. *)
Definition write_status (x : jsnum) (st : StepStatus) (p : Plan) : Plan :=
  match element_index x with
  | Some i => set_status i st p
  | None => p
  end.

Definition write_notes (x : jsnum) (n : string) (p : Plan) : Plan :=
  match element_index x with
  | Some i => set_notes i n p
  | None => p
  end.

Definition throwTool {A} (msg : string) : outcome A := Thrown (mkError ToolError msg).

(** The arguments object of [execute], after its [= null] defaults.
    [step_index] is declared a [number | null]; nothing checks that the
    number is an integer, or a number at all: a value of another type goes
    through the comparisons of [markStep] as the number it converts to. *)
Record Args : Type := mkArgs {
  command : string;
  arg_plan_id : option string;
  arg_title : option string;
  arg_steps : jsval;
  arg_step_index : option jsnum;
  arg_step_status : option string;
  arg_step_notes : option string;
}.

Section Commands.

(** [formatPlan] renders a plan as the text report; its percentage goes
    through floating-point [toFixed], so the renderer stays a parameter. *)
Variable formatPlan : Plan -> string.

Definition createPlan (planId title : option string) (steps : jsval)
    (self : PlanningTool) : PlanningTool * outcome ToolResult :=
  match nonempty planId with
  | None => (self, throwTool "Parameter `plan_id` is required for command: create")
  | Some planId =>
    if bool_decide (is_Some (plans self !! planId)) then
      (self, throwTool ("A plan with ID '" ++ planId
                        ++ "' already exists. Use 'update' to modify existing plans."))
    else
    match nonempty title with
    | None => (self, throwTool "Parameter `title` is required for command: create")
    | Some title =>
      if negb (truthy steps) || negb (isArray steps) || negb (every_string steps) then
        (self, throwTool
           "Parameter `steps` must be a non-empty list of strings for command: create")
      else
        let steps := strings_of steps in
        let plan := mkPlan planId title steps
                      (replicate (length steps) not_started)
                      (replicate (length steps) EmptyString) in
        (mkPlanningTool (<[planId := plan]> (plans self))
                        (push (plan_order self) planId)
                        (Some planId),
         Returned (result_of ("Plan created successfully with ID: " ++ planId
                              ++ nl ++ nl ++ formatPlan plan)))
    end
  end.

(** The loop of [updatePlan] over the new steps: the entry at [i] keeps the
    old status and note when the old list has a step at [i] with the same
    text.  [oldStatuses[i]] and [oldNotes[i]] are read below
    [oldSteps.length] only, where the three lists of a plan have entries. *)
Definition carried_status (oldSteps : list string) (oldStatuses : list StepStatus)
    (i : nat) (step : string) : StepStatus :=
  if bool_decide (i < length oldSteps) && bool_decide (Some step = oldSteps !! i)
  then default not_started (oldStatuses !! i)
  else not_started.

Definition carried_note (oldSteps : list string) (oldNotes : list string)
    (i : nat) (step : string) : string :=
  if bool_decide (i < length oldSteps) && bool_decide (Some step = oldSteps !! i)
  then default EmptyString (oldNotes !! i)
  else EmptyString.

Definition updatePlan (planId title : option string) (steps : jsval)
    (self : PlanningTool) : PlanningTool * outcome ToolResult :=
  match nonempty planId with
  | None => (self, throwTool "Parameter `plan_id` is required for command: update")
  | Some planId =>
    match plans self !! planId with
    | None => (self, throwTool ("No plan found with ID: " ++ planId))
    | Some plan =>
      let '(plan, self) :=
        match nonempty title with
        | Some title => let plan := set_title title plan in (plan, store planId plan self)
        | None => (plan, self)
        end in
      if truthy steps then
        if negb (isArray steps) || negb (every_string steps) then
          (self, throwTool "Parameter `steps` must be a list of strings for command: update")
        else
          let steps := strings_of steps in
          let oldSteps := Planning.steps plan in
          let oldStatuses := step_statuses plan in
          let oldNotes := step_notes plan in
          let newStatuses := imap (carried_status oldSteps oldStatuses) steps in
          let newNotes := imap (carried_note oldSteps oldNotes) steps in
          let plan := mkPlan (plan_id plan) (Planning.title plan) steps newStatuses newNotes in
          (store planId plan self,
           Returned (result_of ("Plan updated successfully: " ++ planId
                                ++ nl ++ nl ++ formatPlan plan)))
      else
        (self, Returned (result_of ("Plan updated successfully: " ++ planId
                                    ++ nl ++ nl ++ formatPlan plan)))
    end
  end.

(** [plan.step_statuses.filter((status) => status === "completed").length] *)
Definition count_status (st : StepStatus) (p : Plan) : nat :=
  length (filter (fun s => s = st) (step_statuses p)).

Definition list_line (self : PlanningTool) (planId : string) (plan : Plan) : string :=
  let currentMarker :=
    if bool_decide (Some planId = currentPlanId self) then " (active)" else EmptyString in
  let progress := pretty (count_status completed plan) ++ "/"
                  ++ pretty (length (steps plan)) ++ " steps completed" in
  "• " ++ planId ++ currentMarker ++ ": " ++ title plan ++ " - " ++ progress ++ nl.

Definition listPlans (self : PlanningTool) : PlanningTool * outcome ToolResult :=
  if bool_decide (size (plans self) = 0) then
    (self, Returned (result_of
       "No plans available. Create a plan with the 'create' command."))
  else
    let output :=
      foldl (fun output planId =>
               match plans self !! planId with
               | Some plan => output ++ list_line self planId plan
               | None => output
               end)
            ("Available plans:" ++ nl) (plan_order self) in
    (self, Returned (result_of output)).

(** The first lines of [getPlan] and [markStep]: an absent [plan_id] is
    replaced by the active plan. *)
Definition resolve (planId : option string) (self : PlanningTool) : outcome string :=
  match nonempty planId with
  | Some planId => Returned planId
  | None =>
    match nonempty (currentPlanId self) with
    | None => throwTool "No active plan. Please specify a plan_id or set an active plan."
    | Some planId => Returned planId
    end
  end.

Definition getPlan (planId : option string) (self : PlanningTool)
    : PlanningTool * outcome ToolResult :=
  match resolve planId self with
  | Thrown e => (self, Thrown e)
  | Returned planId =>
    match plans self !! planId with
    | None => (self, throwTool ("No plan found with ID: " ++ planId))
    | Some plan => (self, Returned (result_of (formatPlan plan)))
    end
  end.

Definition setActivePlan (planId : option string) (self : PlanningTool)
    : PlanningTool * outcome ToolResult :=
  match nonempty planId with
  | None => (self, throwTool "Parameter `plan_id` is required for command: set_active")
  | Some planId =>
    match plans self !! planId with
    | None => (self, throwTool ("No plan found with ID: " ++ planId))
    | Some plan =>
      (mkPlanningTool (plans self) (plan_order self) (Some planId),
       Returned (result_of ("Plan '" ++ planId ++ "' is now the active plan."
                            ++ nl ++ nl ++ formatPlan plan)))
    end
  end.

(** The guard [stepStatus && ![...].includes(stepStatus)] of [markStep]:
    the offending status, when there is one. *)
Definition invalid_status (stepStatus : option string) : option string :=
  match nonempty stepStatus with
  | Some s => if bool_decide (is_Some (status_of_string s)) then None else Some s
  | None => None
  end.

Definition markStep (planId : option string) (stepIndex : option jsnum)
    (stepStatus stepNotes : option string) (self : PlanningTool)
    : PlanningTool * outcome ToolResult :=
  match resolve planId self with
  | Thrown e => (self, Thrown e)
  | Returned planId =>
    match plans self !! planId with
    | None => (self, throwTool ("No plan found with ID: " ++ planId))
    | Some plan =>
      match stepIndex with
      | None => (self, throwTool "Parameter `step_index` is required for command: mark_step")
      | Some stepIndex =>
        if num_ltb stepIndex 0 || num_geb stepIndex (Z.of_nat (length (steps plan))) then
          (self, throwTool ("Invalid step_index: " ++ num_text stepIndex
                            ++ ". Valid indices range from 0 to "
                            ++ pretty (Z.of_nat (length (steps plan)) - 1)%Z ++ "."))
        else
          match invalid_status stepStatus with
          | Some s =>
            (self, throwTool ("Invalid step_status: " ++ s
               ++ ". Valid statuses are: not_started, in_progress, completed, blocked"))
          | None =>
            let plan :=
              match nonempty stepStatus ≫= status_of_string with
              | Some st => write_status stepIndex st plan
              | None => plan
              end in
            let plan :=
              match nonempty stepNotes with
              | Some n => write_notes stepIndex n plan
              | None => plan
              end in
            (store planId plan self,
             Returned (result_of ("Step " ++ num_text stepIndex ++ " updated in plan '"
                                  ++ planId ++ "'." ++ nl ++ nl ++ formatPlan plan)))
          end
      end
    end
  end.

Definition deletePlan (planId : option string) (self : PlanningTool)
    : PlanningTool * outcome ToolResult :=
  match nonempty planId with
  | None => (self, throwTool "Parameter `plan_id` is required for command: delete")
  | Some planId =>
    match plans self !! planId with
    | None => (self, throwTool ("No plan found with ID: " ++ planId))
    | Some _ =>
      (mkPlanningTool (delete planId (plans self))
                      (filter (fun k => k ≠ planId) (plan_order self))
                      (if bool_decide (currentPlanId self = Some planId) then None
                       else currentPlanId self),
       Returned (result_of ("Plan '" ++ planId ++ "' has been deleted.")))
    end
  end.

(** [execute]: the dispatch on [command]. *)
Definition execute (a : Args) (self : PlanningTool) : PlanningTool * outcome ToolResult :=
  if String.eqb (command a) "create" then
    createPlan (arg_plan_id a) (arg_title a) (arg_steps a) self
  else if String.eqb (command a) "update" then
    updatePlan (arg_plan_id a) (arg_title a) (arg_steps a) self
  else if String.eqb (command a) "list" then listPlans self
  else if String.eqb (command a) "get" then getPlan (arg_plan_id a) self
  else if String.eqb (command a) "set_active" then setActivePlan (arg_plan_id a) self
  else if String.eqb (command a) "mark_step" then
    markStep (arg_plan_id a) (arg_step_index a) (arg_step_status a) (arg_step_notes a) self
  else if String.eqb (command a) "delete" then deletePlan (arg_plan_id a) self
  else
    (self, throwTool ("Unrecognized command: " ++ command a
       ++ ". Allowed commands are: create, update, list, get, set_active, mark_step, delete")).

(** A session: the commands of a list, one after the other, on one tool;
    a command that throws leaves the tool as it was when it threw. *)
Definition run_commands (cmds : list Args) (self : PlanningTool) : PlanningTool :=
  foldl (fun self a => fst (execute a self)) self cmds.

End Commands.

(** A number that lies below 0, or at or above the count [n] of the steps:
    what the guard of [markStep] turns away. *)
Definition below_or_beyond (x : jsnum) (n : nat) : Prop :=
  match x with
  | NInt z => (z < 0 \/ Z.of_nat n <= z)%Z
  | NReal whole _ => (whole < 0 \/ Z.of_nat n <= whole)%Z
  | NaN => False
  | NInf _ => True
  end.

(** A number within [0 <= x < n].  [NaN] is within no range. *)
Definition within_range (x : jsnum) (n : nat) : Prop :=
  match x with
  | NInt z => (0 <= z < Z.of_nat n)%Z
  | NReal whole _ => (0 <= whole < Z.of_nat n)%Z
  | NaN => False
  | NInf _ => False
  end.

(** The three parallel lists of a plan have the length of [steps]. *)
Definition plan_wf (p : Plan) : Prop :=
  length (step_statuses p) = length (steps p) /\ length (step_notes p) = length (steps p).

(** The plans of the table are filed under a key that is not empty, and
    are well-formed. *)
Definition tool_wf (self : PlanningTool) : Prop :=
  forall planId p, plans self !! planId = Some p -> planId <> EmptyString /\ plan_wf p.

End Planning.

(** ** [src/schema/state.ts], [src/schema/message.ts], [src/schema/memory.ts] *)

Module Schema.
Import JS.

Inductive AgentState : Type := IDLE | RUNNING | FINISHED | ERROR.

#[global] Instance AgentState_eq_dec : EqDecision AgentState.
Proof. solve_decision. Defined.

(** The string value of an enum member, as a template literal prints it. *)
Definition state_name (s : AgentState) : string :=
  match s with
  | IDLE => "IDLE" | RUNNING => "RUNNING" | FINISHED => "FINISHED" | ERROR => "ERROR"
  end.

Inductive MessageRole : Type := system | user | assistant | tool.

#[global] Instance MessageRole_eq_dec : EqDecision MessageRole.
Proof. solve_decision. Defined.

(** [interface Function] *)
Record Function : Type := mkFunction { fn_name : string; arguments : string }.

Record ToolCall : Type := mkToolCall { id : string; type : string; function : Function }.

(** [class Message]; [None] in [content] is [null], in the optional
    fields it is a property that was never set. *)
Record Message : Type := mkMessage {
  role : MessageRole;
  content : option string;
  tool_calls : option (list ToolCall);
  name : option string;
  tool_call_id : option string;
}.

(** The constructor sets [name] and [tool_call_id] only when truthy. *)
Definition new_Message (role : MessageRole) (content : option string)
    (tool_calls : option (list ToolCall)) (name tool_call_id : option string) : Message :=
  mkMessage role content tool_calls (nonempty name) (nonempty tool_call_id).

Definition userMessage (content : string) : Message :=
  new_Message user (Some content) None None None.

Definition systemMessage (content : string) : Message :=
  new_Message system (Some content) None None None.

Definition assistantMessage (content : option string) : Message :=
  new_Message assistant content None None None.

Definition toolMessage (content name tool_call_id : string) : Message :=
  new_Message tool (Some content) None (Some name) (Some tool_call_id).

Definition fromToolCalls (tool_calls : list ToolCall) (content : option string) : Message :=
  new_Message assistant content (Some tool_calls) None None.

(** [class Memory]; [maxMessages] is whatever integer the constructor was
    given, which it does not check. *)
Record Memory : Type := mkMemory { messages : list Message; maxMessages : Z }.

(** [l.slice(-n)] for a count [n]: the last [n] elements; [-0] is [0], the
    whole array. *)
Definition slice_last {A} (n : nat) (l : list A) : list A :=
  if bool_decide (n = 0) then l else drop (length l - n) l.

(** [l.slice(start)] for an integer [start]: a negative [start] counts
    from the end, any other from the beginning. *)
Definition slice {A} (start : Z) (l : list A) : list A :=
  if (start <? 0)%Z then slice_last (Z.to_nat (- start)) l
  else drop (Z.to_nat start) l.

Definition addMessage (message : Message) (self : Memory) : Memory :=
  let messages := push (messages self) message in
  if bool_decide (maxMessages self < Z.of_nat (length messages))%Z
  then mkMemory (slice (- maxMessages self) messages) (maxMessages self)
  else mkMemory messages (maxMessages self).

(** [new Memory(maxMessages = 100)] *)
Definition new_Memory (maxMessages : option Z) : Memory :=
  mkMemory [] (default 100%Z maxMessages).

(** [addMessages(messages)]: all are pushed, then the limit is applied once. *)
Definition addMessages (new : list Message) (self : Memory) : Memory :=
  let messages := (messages self ++ new)%list in
  if bool_decide (maxMessages self < Z.of_nat (length messages))%Z
  then mkMemory (slice (- maxMessages self) messages) (maxMessages self)
  else mkMemory messages (maxMessages self).

(** [clear()] *)
Definition clear (self : Memory) : Memory := mkMemory [] (maxMessages self).

(** [getRecentMessages(n)], for a count [n]. *)
Definition getRecentMessages (n : nat) (self : Memory) : list Message :=
  slice_last n (messages self).

End Schema.

(** ** [src/agent/base.ts] and [src/agent/react.ts] *)

Module Agent.
Import JS Schema.

(** [class BaseAgent]; [ext] holds the fields a subclass adds.  The [llm]
    client is the boundary to the model provider and is not a field here. *)
Record BaseAgent (E : Type) : Type := mkAgent {
  agent_name : string;
  description : option string;
  systemPrompt : option string;
  nextStepPrompt : option string;
  memory : Memory;
  state : AgentState;
  maxSteps : Z;
  currentStep : Z;
  duplicateThreshold : Z;
  ext : E;
}.
Global Arguments mkAgent {E}.
Global Arguments agent_name {E}.
Global Arguments description {E}.
Global Arguments systemPrompt {E}.
Global Arguments nextStepPrompt {E}.
Global Arguments memory {E}.
Global Arguments state {E}.
Global Arguments maxSteps {E}.
Global Arguments currentStep {E}.
Global Arguments duplicateThreshold {E}.
Global Arguments ext {E}.

Section Base.
Context {E : Type}.
Abbreviation agent := (BaseAgent E).

Definition set_state (s : AgentState) (a : agent) : agent :=
  mkAgent (agent_name a) (description a) (systemPrompt a) (nextStepPrompt a) (memory a)
          s (maxSteps a) (currentStep a) (duplicateThreshold a) (ext a).

Definition set_memory (m : Memory) (a : agent) : agent :=
  mkAgent (agent_name a) (description a) (systemPrompt a) (nextStepPrompt a) m
          (state a) (maxSteps a) (currentStep a) (duplicateThreshold a) (ext a).

Definition set_nextStepPrompt (p : option string) (a : agent) : agent :=
  mkAgent (agent_name a) (description a) (systemPrompt a) p (memory a)
          (state a) (maxSteps a) (currentStep a) (duplicateThreshold a) (ext a).

Definition set_currentStep (n : Z) (a : agent) : agent :=
  mkAgent (agent_name a) (description a) (systemPrompt a) (nextStepPrompt a) (memory a)
          (state a) (maxSteps a) n (duplicateThreshold a) (ext a).

Definition set_ext (e : E) (a : agent) : agent :=
  mkAgent (agent_name a) (description a) (systemPrompt a) (nextStepPrompt a) (memory a)
          (state a) (maxSteps a) (currentStep a) (duplicateThreshold a) e.

(** The constructor, for the fields of [config] that are numbers or
    prompts: [x || d] takes the default for an absent or zero [x]. *)
Definition num_or (x : option Z) (d : Z) : Z :=
  match x with
  | Some n => if (n =? 0)%Z then d else n
  | None => d
  end.

Definition new_BaseAgent (name : string) (description systemPrompt nextStepPrompt : option string)
    (memory : option Memory) (maxSteps duplicateThreshold : option Z) (e : E) : agent :=
  mkAgent name description systemPrompt nextStepPrompt
          (default (mkMemory [] 100%Z) memory) IDLE (num_or maxSteps 10) 0
          (num_or duplicateThreshold 2) e.

(** [withState(newState, callback)].  Every value of the type [AgentState]
    is one of [Object.values(AgentState)], so the first guard never throws.
    A callback that does not return is [None]. *)
Definition withState {T} (newState : AgentState)
    (callback : agent -> option (agent * outcome T)) (self : agent)
    : option (agent * outcome T) :=
  let previousState := state self in
  let self := set_state newState self in
  match callback self with
  | None => None
  | Some (self, Returned v) =>
      (* finally *)
      Some (set_state previousState self, Returned v)
  | Some (self, Thrown error) =>
      (* catch *)
      let self := set_state ERROR self in
      (* finally *)
      Some (set_state previousState self, Thrown error)
  end.

(** [updateMemory(role, content, options)] *)
Definition updateMemory (role : MessageRole) (content : string)
    (options_name options_tool_call_id : option string) (self : agent) : agent :=
  let message :=
    match role with
    | user => userMessage content
    | system => systemMessage content
    | assistant => assistantMessage (Some content)
    | tool => toolMessage content
                (default "unknown" (nonempty options_name))
                (default "unknown" (nonempty options_tool_call_id))
    end in
  set_memory (addMessage message (memory self)) self.

Definition stuckPrompt : string :=
  "    Observed duplicate responses. Consider new strategies and avoid repeating ineffective paths already attempted.".

(** [handleStuckState()]: the template literal prints an unset
    [nextStepPrompt] as [undefined]. *)
Definition handleStuckState (self : agent) : agent :=
  set_nextStepPrompt
    (Some (stuckPrompt ++ nl ++ default "undefined" (nextStepPrompt self))) self.

(** The counting loop of [isStuck] over the messages before the last. *)
Definition duplicateCount (lastMessage : Message) (prior : list Message) : nat :=
  length (filter (fun msg => role msg = assistant /\ content msg = content lastMessage) prior).

Definition isStuck (self : agent) : bool :=
  let msgs := messages (memory self) in
  if bool_decide (length msgs < 2) then false
  else
    match last msgs with
    | None => false
    | Some lastMessage =>
      if negb (str_truthy (content lastMessage)) then false
      else (Z.of_nat (duplicateCount lastMessage (take (length msgs - 1) msgs))
              >=? duplicateThreshold self)%Z
    end.

(** [if (request) { this.updateMemory("user", request); }] in [run]. *)
Definition with_request (request : option string) (self : agent) : agent :=
  match nonempty request with
  | Some request => updateMemory user request None None self
  | None => self
  end.

(** [if (this.isStuck()) { this.handleStuckState(); }] in the loop of [run]. *)
Definition check_stuck (self : agent) : agent :=
  if isStuck self then handleStuckState self else self.

Section Run.

(** The abstract method [step()] of the subclass. *)
Variable step : agent -> agent * outcome string.

(** The [while] loop of [run]: [fuel] bounds the number of iterations and
    [None] is a loop that has not ended within it. *)
Fixpoint run_loop (fuel : nat) (results : list string) (self : agent)
    : option (agent * outcome (list string)) :=
  if (currentStep self <? maxSteps self)%Z && negb (bool_decide (state self = FINISHED)) then
    match fuel with
    | O => None
    | S fuel =>
      let self := set_currentStep (currentStep self + 1) self in
      match step self with
      | (self, Thrown e) => Some (self, Thrown e)
      | (self, Returned stepResult) =>
        let self := check_stuck self in
        run_loop fuel
          (push results ("Step " ++ pretty (currentStep self) ++ ": " ++ stepResult)) self
      end
    end
  else Some (self, Returned results).

(** [run(request)] *)
Definition run (fuel : nat) (request : option string) (self : agent)
    : option (agent * outcome string) :=
  if negb (bool_decide (state self = IDLE)) then
    Some (self, Thrown (mkError PlainError
                          ("Cannot run agent from state: " ++ state_name (state self))))
  else
    let self := with_request request self in
    withState RUNNING
      (fun self =>
         match run_loop fuel [] self with
         | None => None
         | Some (self, Thrown e) => Some (self, Thrown e)
         | Some (self, Returned results) =>
           let results :=
             if (currentStep self >=? maxSteps self)%Z then
               push results
                    ("Terminated: Reached max steps (" ++ pretty (maxSteps self) ++ ")")
             else results in
           Some (self, Returned (if bool_decide (length results ≠ 0)
                                 then String.concat nl results
                                 else "No steps executed"))
         end)
      self.

End Run.

(** [ReActAgent.step()]: think, then act when asked to. *)
Definition react_step (think : agent -> agent * outcome bool)
    (act : agent -> agent * outcome string) (self : agent) : agent * outcome string :=
  match think self with
  | (self, Thrown e) => (self, Thrown e)
  | (self, Returned shouldAct) =>
    if negb shouldAct then (self, Returned "Thinking complete - no action needed")
    else act self
  end.

End Base.

End Agent.

(** ** [src/tool/tool-collection.ts] and [src/tool/terminate.ts] *)

Module Collection.
Import JS Tool.

(** What the [execute] of a tool resolves to, a [Promise<any>]: an object,
    read through the fields of [ToolResult]; or [undefined] or [null], on
    which reading a property throws; or a string, a number or a boolean,
    whose properties of these names read as [undefined]. *)
Inductive Resolved : Type :=
| AnObject (result : ToolResult)
| Nullish (is_null : bool)
| Primitive.

(** [class BaseTool]: a tool keeps its state in [W], the state of the
    tools of a collection; the JSON schema [parameters] is not modelled. *)
Record BaseTool (W : Type) : Type := mkTool {
  tool_name : string;
  tool_description : string;
  tool_execute : jsval -> W -> W * outcome Resolved;
}.
Global Arguments mkTool {W}.
Global Arguments tool_name {W}.
Global Arguments tool_description {W}.
Global Arguments tool_execute {W}.

Record ToolCollection (W : Type) : Type := mkCollection {
  tools : list (BaseTool W);
  toolMap : gmap string (BaseTool W);
}.
Global Arguments mkCollection {W}.
Global Arguments tools {W}.
Global Arguments toolMap {W}.

Section WithState.
Context {W : Type}.

(** [new ToolCollection(...tools)]: in [new Map(entries)] a later entry
    replaces an earlier one of the same name. *)
Definition new_ToolCollection (ts : list (BaseTool W)) : ToolCollection W :=
  mkCollection ts (foldl (fun m t => <[tool_name t := t]> m) ∅ ts).

(** [toParams()], as the name and description of each tool. *)
Definition toParams (self : ToolCollection W) : list (string * string) :=
  map (fun t => (tool_name t, tool_description t)) (tools self).

Definition getTool (name : string) (self : ToolCollection W) : option (BaseTool W) :=
  toolMap self !! name.

(** [execute(name, toolInput)]: what the tool resolves to is handed on as
    it is, what it throws becomes a [ToolFailure]; the tools keep the state
    they had when they threw. *)
Definition execute (name : string) (toolInput : jsval) (self : ToolCollection W) (w : W)
    : W * Resolved :=
  match toolMap self !! name with
  | None => (w, AnObject (ToolFailure ("Tool " ++ name ++ " is invalid")))
  | Some tool =>
    match tool_execute tool toolInput w with
    | (w, Returned result) => (w, result)
    | (w, Thrown error) =>
      if bool_decide (err_class error = ToolError)
      then (w, AnObject (ToolFailure (err_message error)))
      else (w, AnObject (ToolFailure ("Unknown error: " ++ error_toString error)))
    end
  end.

(** [result.output] on what a tool resolved to; [None] is [undefined].  The
    text of the [TypeError] is the engine's. *)
Definition read_output (result : Resolved) : outcome (option jsval) :=
  match result with
  | AnObject r => Returned (Some (output r))
  | Nullish is_null =>
      Thrown (mkError TypeError
                ("Cannot read properties of " ++ (if is_null then "null" else "undefined")
                 ++ " (reading 'output')"))
  | Primitive => Returned None
  end.

(** [class Terminate].  Destructuring [{ status }] throws on [null] (the
    text of that [TypeError] is the engine's) and reads an absent property
    as [undefined]. *)
Definition Terminate : BaseTool W :=
  mkTool "terminate"
    "Terminate the interaction when the request is met OR if the assistant cannot proceed further with the task."
    (fun args w =>
       match args with
       | JNull =>
           (w, Thrown (mkError TypeError
              "Cannot destructure property 'status' of 'object null' as it is null."))
       | _ =>
           let status :=
             match args with
             | JObj kv => match kv !! "status" with Some v => toString v | None => "undefined" end
             | _ => "undefined"
             end in
           (w, Returned (AnObject (result_of
                  ("The interaction has been completed with status: " ++ status))))
       end).

(** [addTool(tool)] *)
Definition addTool (tool : BaseTool W) (self : ToolCollection W) : ToolCollection W :=
  mkCollection (push (tools self) tool) (<[tool_name tool := tool]> (toolMap self)).

(** [addTools(...tools)] *)
Definition addTools (ts : list (BaseTool W)) (self : ToolCollection W) : ToolCollection W :=
  foldl (fun self tool => addTool tool self) self ts.

End WithState.

End Collection.

(** ** [src/agent/toolcall.ts] *)

Module ToolCallAgent.
Import JS Tool Schema Agent Collection.

Inductive ToolChoice : Type := none | auto | required.

#[global] Instance ToolChoice_eq_dec : EqDecision ToolChoice.
Proof. solve_decision. Defined.

(** The message [askTool] returns. *)
Record Response : Type := mkResponse {
  resp_content : option string;
  resp_tool_calls : option (list ToolCall);
}.

(** The fields [ToolCallAgent] adds to [BaseAgent].  The constructor leaves
    [availableTools] unassigned ([None]) until it is set from outside;
    [toolState] is the state of the tools in the collection. *)
Record Fields (W : Type) : Type := mkFields {
  availableTools : option (ToolCollection W);
  toolChoices : ToolChoice;
  specialToolNames : list string;
  toolCalls : list ToolCall;
  toolState : W;
}.
Global Arguments mkFields {W}.
Global Arguments availableTools {W}.
Global Arguments toolChoices {W}.
Global Arguments specialToolNames {W}.
Global Arguments toolCalls {W}.
Global Arguments toolState {W}.

Definition TOOL_CALL_REQUIRED : string := "Tool calls required but none provided".

Section WithBoundary.
Context {W : Type}.
Abbreviation agent := (BaseAgent (Fields W)).

(** The model boundary [llm.askTool(messages, systemMsgs, tools, toolChoice)]. *)
Variable askTool :
  list Message -> option (list Message) -> list (string * string) -> ToolChoice
  -> outcome Response.

(** [JSON.parse]; [None] is a [SyntaxError]. *)
Variable JSON_parse : string -> option jsval.

(** [String.prototype.toLowerCase]. *)
Variable toLowerCase : string -> string.

Definition set_toolCalls (tcs : list ToolCall) (self : agent) : agent :=
  let f := ext self in
  set_ext (mkFields (availableTools f) (toolChoices f) (specialToolNames f) tcs (toolState f))
          self.

Definition set_toolState (w : W) (self : agent) : agent :=
  let f := ext self in
  set_ext (mkFields (availableTools f) (toolChoices f) (specialToolNames f) (toolCalls f) w)
          self.

(** [this.messages.push(msg)]: straight onto the array, past the cap of
    [Memory.addMessage]. *)
Definition push_message (msg : Message) (self : agent) : agent :=
  set_memory (mkMemory (push (messages (memory self)) msg) (maxMessages (memory self))) self.

Definition add_message (msg : Message) (self : agent) : agent :=
  set_memory (addMessage msg (memory self)) self.

(** The body of the [try] block of [think]. *)
Definition think_try (self : agent) : agent * outcome bool :=
  match availableTools (ext self) with
  | None =>
      (self, Thrown (mkError TypeError
                       "Cannot read properties of undefined (reading 'toParams')"))
  | Some tools =>
    match askTool (messages (memory self))
                  (match nonempty (systemPrompt self) with
                   | Some p => Some [systemMessage p]
                   | None => None
                   end)
                  (toParams tools) (toolChoices (ext self)) with
    | Thrown e => (self, Thrown e)
    | Returned response =>
      let self := set_toolCalls (default [] (resp_tool_calls response)) self in
      if bool_decide (toolChoices (ext self) = none) then
        if str_truthy (resp_content response) then
          (add_message (assistantMessage (resp_content response)) self, Returned true)
        else (self, Returned false)
      else
        let assistantMsg :=
          if bool_decide (0 < length (toolCalls (ext self)))
          then fromToolCalls (toolCalls (ext self)) (resp_content response)
          else assistantMessage (resp_content response) in
        let self := add_message assistantMsg self in
        if bool_decide (toolChoices (ext self) = required)
           && bool_decide (length (toolCalls (ext self)) = 0) then
          (self, Returned true)
        else if bool_decide (toolChoices (ext self) = auto)
                && bool_decide (length (toolCalls (ext self)) = 0) then
          (self, Returned (str_truthy (resp_content response)))
        else (self, Returned (bool_decide (0 < length (toolCalls (ext self)))))
    end
  end.

(** [think()] *)
Definition think (self : agent) : agent * outcome bool :=
  let self :=
    match nonempty (nextStepPrompt self) with
    | Some p => push_message (userMessage p) self
    | None => self
    end in
  match think_try self with
  | (self, Thrown error) =>
      (add_message
         (assistantMessage
            (Some ("Error encountered while processing: "
                   ++ default (error_toString error) (nonempty (Some (err_message error))))))
         self,
       Returned false)
  | (self, Returned b) => (self, Returned b)
  end.

(** [isSpecialTool(name)] *)
Definition isSpecialTool (name : string) (self : agent) : bool :=
  bool_decide (toLowerCase name ∈ map toLowerCase (specialToolNames (ext self))).

(** [shouldFinishExecution(name, result)] *)
Definition shouldFinishExecution (name : string) (result : Resolved) : bool := true.

(** [handleSpecialTool(name, result)] *)
Definition handleSpecialTool (name : string) (result : Resolved) (self : agent) : agent :=
  if negb (isSpecialTool name self) then self
  else if shouldFinishExecution name result then set_state FINISHED self
  else self.

(** The body of the outer [try] block of [executeTool]; the inner [catch]
    returns from the method. *)
Definition executeTool_try (name : string) (command : ToolCall)
    (tools : ToolCollection W) (self : agent) : agent * outcome string :=
  match JSON_parse (default "{}" (nonempty (Some (arguments (function command))))) with
  | None =>
      (self, Returned ("Error parsing arguments for " ++ name ++ ": Invalid JSON format"))
  | Some args =>
    let '(w, result) := execute name args tools (toolState (ext self)) in
    let self := set_toolState w self in
    match read_output result with
    | Thrown e => (self, Thrown e)
    | Returned out =>
      let observation :=
        match out with
        | Some out =>
            if truthy out
            then "Observed output of cmd `" ++ name ++ "` executed:" ++ nl ++ toString out
            else "Cmd `" ++ name ++ "` completed with no output"
        | None => "Cmd `" ++ name ++ "` completed with no output"
        end in
      let self := handleSpecialTool name result self in
      (self, Returned observation)
    end
  end.

(** [executeTool(command)]: the two guards, then the [try] block and its
    [catch], which turns what was thrown into the text it returns. *)
Definition executeTool (command : ToolCall) (self : agent) : agent * outcome string :=
  match nonempty (Some (fn_name (function command))) with
  | None => (self, Returned "Error: Invalid command format")
  | Some name =>
    match availableTools (ext self) with
    | None =>
        (self, Thrown (mkError TypeError
                         "Cannot read properties of undefined (reading 'getTool')"))
    | Some tools =>
      match getTool name tools with
      | None => (self, Returned ("Error: Unknown tool '" ++ name ++ "'"))
      | Some _ =>
        match executeTool_try name command tools self with
        | (self, Returned observation) => (self, Returned observation)
        | (self, Thrown error) =>
          if bool_decide (err_class error = ToolError) then
            (self, Returned ("Error: " ++ err_message error))
          else
            let errorMsg :=
              "⚠️ Tool '" ++ name ++ "' encountered a problem: "
              ++ default (error_toString error) (nonempty (Some (err_message error))) in
            (self, Returned ("Error: " ++ errorMsg))
        end
      end
    end
  end.

(** The [for ... of] loop of [act] over the tool calls. *)
Fixpoint act_loop (commands : list ToolCall) (results : list string) (self : agent)
    : agent * outcome (list string) :=
  match commands with
  | [] => (self, Returned results)
  | command :: commands =>
    match executeTool command self with
    | (self, Thrown e) => (self, Thrown e)
    | (self, Returned result) =>
      let toolMsg := toolMessage result (fn_name (function command)) (id command) in
      let self := add_message toolMsg self in
      act_loop commands (push results result) self
    end
  end.

(** [act()] *)
Definition act (self : agent) : agent * outcome string :=
  if bool_decide (length (toolCalls (ext self)) = 0) then
    if bool_decide (toolChoices (ext self) = required) then
      (self, Thrown (mkError PlainError TOOL_CALL_REQUIRED))
    else
      match last (messages (memory self)) with
      | None =>
          (self, Thrown (mkError TypeError
                           "Cannot read properties of undefined (reading 'content')"))
      | Some m =>
          (self, Returned (default "No content or commands to execute"
                                   (nonempty (content m))))
      end
  else
    match act_loop (toolCalls (ext self)) [] self with
    | (self, Thrown e) => (self, Thrown e)
    | (self, Returned results) => (self, Returned (String.concat (nl ++ nl) results))
    end.

(** [step()], inherited from [ReActAgent]. *)
Definition step : agent -> agent * outcome string := react_step think act.

End WithBoundary.

End ToolCallAgent.

(** ** The properties, as predicates *)

Module Claims.
Import JS Tool Schema Agent.

(** What [combine] is asked to yield for a field of texts: the
    concatenation when both operands are populated, the populated one when
    only one is. *)
Definition combined_field (field otherField result : option string) : Prop :=
  match nonempty field, nonempty otherField with
  | Some a, Some b => result = Some (a ++ b)
  | Some _, None => result = field
  | None, Some _ => result = otherField
  | None, None => nonempty result = None
  end.

(** The same for the outputs, where populated is truthy: the populated one
    of a pair in which only one is, and the concatenation of two populated
    texts. *)
Definition combined_output (field otherField result : jsval) : Prop :=
  (truthy field = true -> truthy otherField = false -> result = field)
  /\ (truthy field = false -> truthy otherField = true -> result = otherField)
  /\ (truthy field = false -> truthy otherField = false -> truthy result = false)
  /\ (forall a b, field = JStr a -> otherField = JStr b ->
        a <> EmptyString -> b <> EmptyString -> result = JStr (a ++ b)).


Section Stuck.
Context {E : Type}.

(** The messages before the last that the assistant wrote with the text [c]. *)
Definition repeats (c : string) (msgs : list Message) : nat :=
  length (filter (fun msg => role msg = assistant /\ content msg = Some c)
                 (take (length msgs - 1) msgs)).

(** Stuck, in the words of the specification: at least two messages, the
    last with a content that is not [null], repeated before by the
    assistant at least [duplicateThreshold] times. *)
Definition stuck_nonnull (self : BaseAgent E) : Prop :=
  let msgs := messages (memory self) in
  2 <= length msgs
  /\ exists m c, last msgs = Some m /\ content m = Some c
     /\ (duplicateThreshold self <= Z.of_nat (repeats c msgs))%Z.

(** Stuck, as [isStuck] decides it: the content of the last message is
    moreover not the empty string. *)
Definition stuck_nonempty (self : BaseAgent E) : Prop :=
  let msgs := messages (memory self) in
  2 <= length msgs
  /\ exists m c, last msgs = Some m /\ content m = Some c /\ c <> EmptyString
     /\ (duplicateThreshold self <= Z.of_nat (repeats c msgs))%Z.

(** Two states of an agent with the same step counter and bound. *)
Definition same_budget (self self' : BaseAgent E) : Prop :=
  currentStep self' = currentStep self /\ maxSteps self' = maxSteps self.

End Stuck.

End Claims.

(** ** Concrete runs

    Inputs the properties below are evaluated on. *)

Module Scenarios.
Import JS Tool Schema Agent Collection ToolCallAgent.

(** A renderer for the runs: the title stands for the report. *)
Definition title_only (p : Planning.Plan) : string := Planning.title p.

(** [create("p1", "Trip", ["Book flight", "Book hotel"])], then
    [mark_step("p1", 0, "completed")]. *)
Definition trip_session : list Planning.Args :=
  [ Planning.mkArgs "create" (Some "p1") (Some "Trip")
      (JArr [JStr "Book flight"; JStr "Book hotel"]) None None None;
    Planning.mkArgs "mark_step" (Some "p1") None JNull (Some (NInt 0)) (Some "completed")
      None ].

Definition trip_tool : Planning.PlanningTool :=
  Planning.run_commands title_only trip_session Planning.new_PlanningTool.

(** The plan the session leaves under [p1]. *)
Definition trip_plan : Planning.Plan :=
  Planning.mkPlan "p1" "Trip" ["Book flight"; "Book hotel"]
    [Planning.completed; Planning.not_started] [EmptyString; EmptyString].

(** [mark_step("p1", 1, null, "window seat")] after the session. *)
Definition trip_noted : Planning.PlanningTool * outcome ToolResult :=
  Planning.markStep title_only (Some "p1") (Some (NInt 1)) None (Some "window seat")
    trip_tool.

(** A parser for the runs: it knows the empty object and nothing else. *)
Definition parse_empty_object (s : string) : option jsval :=
  if String.eqb s "{}" then Some (JObj ∅) else None.

(** A tool-calling agent as its constructor leaves it, with
    [availableTools] assigned. *)
Definition toolcall_agent (choice : ToolChoice) (ts : list (BaseTool unit))
    : BaseAgent (Fields unit) :=
  new_BaseAgent "toolcall" (Some "an agent that can execute tool calls.")
    (Some "You are an agent that can execute tool calls")
    (Some "If you want to stop interaction, use `terminate` tool/function call.")
    None (Some 30%Z) None
    (mkFields (Some (new_ToolCollection ts)) choice ["terminate"] [] tt).

(** A model that answers with text only. *)
Definition text_only_model (_ : list Message) (_ : option (list Message))
    (_ : list (string * string)) (_ : ToolChoice) : outcome Response :=
  Returned (mkResponse (Some "I can answer without tools.") None).

(** A model that answers with text and asks for [terminate]. *)
Definition terminate_call : ToolCall :=
  mkToolCall "call_1" "function" (mkFunction "terminate" EmptyString).

Definition eager_model (_ : list Message) (_ : option (list Message))
    (_ : list (string * string)) (_ : ToolChoice) : outcome Response :=
  Returned (mkResponse (Some "Done.") (Some [terminate_call])).

(** A memory in which the model has answered with the empty text three
    times. *)
Definition silent_agent : BaseAgent unit :=
  new_BaseAgent "silent" None None None
    (Some (mkMemory [assistantMessage (Some EmptyString);
                     assistantMessage (Some EmptyString);
                     assistantMessage (Some EmptyString)] 100%Z))
    None None tt.

(** A memory in which the model has given the same answer three times. *)
Definition repeating_agent : BaseAgent unit :=
  new_BaseAgent "repeating" None None (Some "What next?")
    (Some (mkMemory [assistantMessage (Some "Let me check.");
                     assistantMessage (Some "Let me check.");
                     assistantMessage (Some "Let me check.")] 100%Z))
    None None tt.

(** An agent that has used up its steps, and a step that would be seen. *)
Definition spent_agent : BaseAgent unit :=
  set_currentStep 10 (new_BaseAgent "spent" None None None None None None tt).

Definition noting_step (a : BaseAgent unit) : BaseAgent unit * outcome string :=
  (updateMemory assistant "working" None None a, Returned "worked").

End Scenarios.

(** ** [src/utils/helpers.ts]: [mergeMessages] *)

Module Helpers.
Import JS Schema.

(** [c || ""] on a content. *)
Definition content_or_empty (c : option string) : string :=
  default EmptyString (nonempty c).

(** [currentMessage.content = ...] *)
Definition set_content (c : option string) (m : Message) : Message :=
  mkMessage (role m) c (tool_calls m) (name m) (tool_call_id m).

(** The test of the loop for a current message: the role differs, or one
    of the two messages carries tool calls. *)
Definition starts_new (currentMessage message : Message) : bool :=
  negb (bool_decide (role message = role currentMessage))
  || bool_decide (is_Some (tool_calls message))
  || bool_decide (is_Some (tool_calls currentMessage)).

(** Writing through [currentMessage], which is the object pushed last. *)
Definition replace_last {A} (x : A) (l : list A) : list A :=
  (take (length l - 1) l ++ [x])%list.

(** The loop over [messages]; [currentMessage] is [null] while [result] is
    empty and is its last element afterwards. *)
Fixpoint mergeMessages_loop (messages result : list Message) : list Message :=
  match messages with
  | [] => result
  | message :: messages =>
    let fresh := new_Message (role message) (content message) (tool_calls message)
                             (name message) (tool_call_id message) in
    match last result with
    | None => mergeMessages_loop messages (push result fresh)
    | Some currentMessage =>
      if starts_new currentMessage message then
        mergeMessages_loop messages (push result fresh)
      else
        mergeMessages_loop messages
          (replace_last
             (set_content (Some (content_or_empty (content currentMessage) ++ nl ++ nl
                                 ++ content_or_empty (content message)))
                          currentMessage)
             result)
    end
  end.

Definition mergeMessages (messages : list Message) : list Message :=
  mergeMessages_loop messages [].

End Helpers.

(** ** [src/flow/base.ts] and the executors of [src/flow/planning.ts] *)

Module Flow.
Import JS.

(** The three forms of the [agents] argument; a [Map] comes as its
    entries in insertion order. *)
Inductive AgentsArg (A : Type) : Type :=
| OneAgent (agent : A)
| AgentArray (agents : list A)
| AgentMap (entries : list (string * A)).
Global Arguments OneAgent {A} agent.
Global Arguments AgentArray {A} agents.
Global Arguments AgentMap {A} entries.

(** [class BaseFlow]: the [Map] [agents] (lookups in [agents], its keys
    in insertion order in [agent_keys]) and [primaryAgentKey]; the list
    [tools] is kept by the flow and never read. *)
Record BaseFlow (A : Type) : Type := mkBaseFlow {
  agents : gmap string A;
  agent_keys : list string;
  primaryAgentKey : option string;
}.
Global Arguments mkBaseFlow {A}.
Global Arguments agents {A}.
Global Arguments agent_keys {A}.
Global Arguments primaryAgentKey {A}.

Section WithAgents.
Context {A : Type}.

(** [new Map(entries)]: a later entry replaces the value of an earlier one
    with the same key, which keeps its place. *)
Definition map_of (entries : list (string * A)) : gmap string A :=
  foldl (fun m e => <[e.1 := e.2]> m) ∅ entries.

Definition keys_of (entries : list (string * A)) : list string :=
  foldl (fun ks e => if bool_decide (e.1 ∈ ks) then ks else push ks e.1) [] entries.

Definition entries_of (arg : AgentsArg A) : list (string * A) :=
  match arg with
  | OneAgent agent => [("default", agent)]
  | AgentArray agents => imap (fun i agent => ("agent_" ++ pretty i, agent)) agents
  | AgentMap entries => entries
  end.

(** The constructor of [BaseFlow]. *)
Definition new_BaseFlow (arg : AgentsArg A) (config_primaryAgentKey : option string)
    : BaseFlow A :=
  let entries := entries_of arg in
  let primaryAgentKey :=
    match nonempty config_primaryAgentKey with
    | Some key => Some key
    | None => head (keys_of entries)
    end in
  mkBaseFlow (map_of entries) (keys_of entries) primaryAgentKey.

(** [getAgent(key)] *)
Definition getAgent (key : string) (self : BaseFlow A) : option A := agents self !! key.

(** [get primaryAgent()] *)
Definition primaryAgent (self : BaseFlow A) : option A :=
  match nonempty (primaryAgentKey self) with
  | Some key => getAgent key self
  | None => None
  end.

(** [addAgent(key, agent)] *)
Definition addAgent (key : string) (agent : A) (self : BaseFlow A) : BaseFlow A :=
  mkBaseFlow (<[key := agent]> (agents self))
             (if bool_decide (is_Some (agents self !! key)) then agent_keys self
              else push (agent_keys self) key)
             (primaryAgentKey self).

(** The fields of [PlanningFlow] that choose the executor of a step. *)
Record PlanningFlow : Type := mkPlanningFlow {
  base : BaseFlow A;
  executorKeys : list string;
}.

(** The constructor of [PlanningFlow], for these fields: without
    [executors], or with none, every key of the flow is an executor. *)
Definition new_PlanningFlow (arg : AgentsArg A)
    (config_primaryAgentKey : option string) (config_executors : option (list string))
    : PlanningFlow :=
  let base := new_BaseFlow arg config_primaryAgentKey in
  let executorKeys := default [] config_executors in
  mkPlanningFlow base
    (if bool_decide (length executorKeys = 0) then agent_keys base else executorKeys).

(** The loop of [getExecutor] over the executor keys. *)
Definition first_executor (self : PlanningFlow) : option A :=
  list_find (fun key => is_Some (agents (base self) !! key)) (executorKeys self)
  ≫= fun found => agents (base self) !! found.2.

(** [getExecutor(stepType)] *)
Definition getExecutor (stepType : option string) (self : PlanningFlow) : outcome A :=
  match nonempty stepType ≫= fun key => agents (base self) !! key with
  | Some agent => Returned agent
  | None =>
    match first_executor self with
    | Some agent => Returned agent
    | None =>
      match primaryAgent (base self) with
      | Some agent => Returned agent
      | None => Thrown (mkError PlainError "No suitable executor agent available")
      end
    end
  end.

End WithAgents.
Global Arguments PlanningFlow A : clear implicits.

End Flow.

(** ** Invariants of the plan table *)

Module Invariants.
Import JS Planning.

(** A plan is filed under its own [plan_id]. *)
Definition keys_match (self : PlanningTool) : Prop :=
  forall k p, plans self !! k = Some p -> plan_id p = k.

(** The active plan, when there is one, is in the table. *)
Definition active_stored (self : PlanningTool) : Prop :=
  forall id, currentPlanId self = Some id -> is_Some (plans self !! id).

(** The keys of the [Map], in insertion order: each stored key once. *)
Definition order_exact (self : PlanningTool) : Prop :=
  NoDup (plan_order self) /\ forall k, k ∈ plan_order self <-> is_Some (plans self !! k).

Definition table_ok (self : PlanningTool) : Prop :=
  keys_match self /\ active_stored self /\ order_exact self.

(** The stored plans in the order of their keys. *)
Definition rows_of (self : PlanningTool) : list (string * Plan) :=
  omap (fun k => (fun p => (k, p)) <$> plans self !! k) (plan_order self).

(** What a command does to the ids of the plans in the order of their
    creation: a [create] that returns puts its id at the end, a [delete]
    that returns takes its id out, nothing else changes them. *)
Definition after_command (a : Args) (o : outcome Tool.ToolResult) (ids : list string)
    : list string :=
  match o, nonempty (arg_plan_id a) with
  | Returned _, Some pid =>
      if String.eqb (command a) "create" then push ids pid
      else if String.eqb (command a) "delete" then filter (fun k => k <> pid) ids
      else ids
  | _, _ => ids
  end.

(** The ids of the plans that the commands of a session have created and
    not deleted since, in the order of their creation. *)
Definition created (formatPlan : Plan -> string) (cmds : list Args) : list string :=
  (foldl (fun state a =>
            let '(self', o) := execute formatPlan a state.1 in
            (self', after_command a o state.2))
         (new_PlanningTool, []) cmds).2.

(** The commands that write nothing before their last guard. *)
Definition atomic_command (c : string) : Prop := c <> "update".

End Invariants.

(** ** More predicates *)

Module Claims2.
Import JS Schema.

(** The limit of [Memory], applied to a list of messages. *)
Definition trim (cap : Z) (l : list Message) : list Message :=
  if bool_decide (cap < Z.of_nat (length l))%Z then slice (- cap) l else l.

(** One field of texts of two combined results: the concatenation of two
    populated fields, else the left one if it is populated, else the right
    one. *)
Definition merged_field (field otherField : option string) : option string :=
  match nonempty field, nonempty otherField with
  | Some a, Some b => Some (a ++ b)
  | _, _ => str_or field otherField
  end.

(** A result whose output is a text or [null]. *)
Definition text_output (r : Tool.ToolResult) : Prop :=
  exists x : option string, Tool.output r = str_val x.

(** The agent once [think] has put the next-step prompt into the memory. *)
Definition prompted {W} (self : Agent.BaseAgent (ToolCallAgent.Fields W))
    : Agent.BaseAgent (ToolCallAgent.Fields W) :=
  match nonempty (Agent.nextStepPrompt self) with
  | Some p => ToolCallAgent.push_message (userMessage p) self
  | None => self
  end.

(** What [think] answers, by the policy and the response of the model. *)
Definition think_answer (choice : ToolCallAgent.ToolChoice)
    (response : ToolCallAgent.Response) : bool :=
  match choice with
  | ToolCallAgent.none => str_truthy (ToolCallAgent.resp_content response)
  | ToolCallAgent.required => true
  | ToolCallAgent.auto =>
      bool_decide (default [] (ToolCallAgent.resp_tool_calls response) <> [])
      || str_truthy (ToolCallAgent.resp_content response)
  end.

(** The assistant message [think] records for a response under the
    policies [auto] and [required]. *)
Definition recorded_message (response : ToolCallAgent.Response) : Message :=
  let calls := default [] (ToolCallAgent.resp_tool_calls response) in
  if bool_decide (calls <> []) then fromToolCalls calls (ToolCallAgent.resp_content response)
  else assistantMessage (ToolCallAgent.resp_content response).

(** The calls of a list executed in turn: each by [executeTool], on the
    agent the call before it left, and each answered in the memory by the
    tool message that carries its result, name and id. *)
Inductive executed_in_turn {W} (JSON_parse : string -> option jsval)
    (toLowerCase : string -> string)
    : list ToolCall -> Agent.BaseAgent (ToolCallAgent.Fields W)
      -> Agent.BaseAgent (ToolCallAgent.Fields W) -> list string -> Prop :=
| executed_none self : executed_in_turn JSON_parse toLowerCase [] self self []
| executed_next command commands self self1 result self' results :
    ToolCallAgent.executeTool JSON_parse toLowerCase command self = (self1, Returned result) ->
    executed_in_turn JSON_parse toLowerCase commands
      (ToolCallAgent.add_message
         (toolMessage result (fn_name (function command)) (id command)) self1)
      self' results ->
    executed_in_turn JSON_parse toLowerCase (command :: commands) self self'
                     (result :: results).

(** Two neighbours that [mergeMessages] merges: the same role and no tool
    calls on either. *)
Definition mergeable (m1 m2 : Message) : Prop :=
  role m2 = role m1 /\ tool_calls m1 = None /\ tool_calls m2 = None.

(** No two neighbours of the list are mergeable. *)
Fixpoint separated (l : list Message) : Prop :=
  match l with
  | m1 :: ((m2 :: _) as tl) => ~ mergeable m1 m2 /\ separated tl
  | _ => True
  end.

(** A message as the constructor leaves it: no empty [name] or
    [tool_call_id]. *)
Definition constructed (m : Message) : Prop :=
  name m = nonempty (name m) /\ tool_call_id m = nonempty (tool_call_id m).

(** A result of [mergeMessages] so far: separated, and made of constructed
    messages. *)
Definition settled (l : list Message) : Prop := separated l /\ Forall constructed l.

End Claims2.

(** ** More concrete runs *)

Module Scenarios2.
Import JS Tool Schema Agent Collection ToolCallAgent.

(** A memory of two messages at most, holding one. *)
Definition small_memory : Memory := mkMemory [userMessage "one"] 2%Z.

Definition two_more : list Message := [assistantMessage (Some "two"); userMessage "three"].

(** [new Memory(-1)], holding a message all the same. *)
Definition leaking_memory : Memory := mkMemory [userMessage "one"] (-1)%Z.

(** The trip session, followed by [create("p0", "Errands", ["Shop"])]. *)
Definition two_plan_session : list Planning.Args :=
  (Scenarios.trip_session
   ++ [Planning.mkArgs "create" (Some "p0") (Some "Errands") (JArr [JStr "Shop"])
         None None None])%list.

(** Three results: the outputs [1], [2] and ["a"]. *)
Definition one : ToolResult := mkToolResult (JNum 1) None None.
Definition two : ToolResult := mkToolResult (JNum 2) None None.
Definition letter : ToolResult := mkToolResult (JStr "a") None None.

(** A model boundary that fails. *)
Definition failing_model (_ : list Message) (_ : option (list Message))
    (_ : list (string * string)) (_ : ToolChoice) : outcome Response :=
  Thrown (mkError PlainError "LLM API request failed: 500 - unavailable").

(** A tool-calling agent as the constructor leaves it. *)
Definition bare_agent : BaseAgent (Fields unit) :=
  new_BaseAgent "toolcall" (Some "an agent that can execute tool calls.")
    (Some "You are an agent that can execute tool calls")
    (Some "If you want to stop interaction, use `terminate` tool/function call.")
    None (Some 30%Z) None
    (mkFields None auto ["terminate"] [] tt).

(** An agent that is about to act on two calls, the first to [terminate],
    the second to a tool it does not have. *)
Definition search_call : ToolCall :=
  mkToolCall "call_2" "function" (mkFunction "search" "{}").

Definition ready_agent : BaseAgent (Fields unit) :=
  set_toolCalls [Scenarios.terminate_call; search_call]
                (Scenarios.toolcall_agent auto [Terminate]).





(** The repeating agent before the last step of its budget, and a step
    in which the model gives the same answer once more. *)
Definition last_step_agent : BaseAgent unit := set_currentStep 9 Scenarios.repeating_agent.

Definition repeating_step (a : BaseAgent unit) : BaseAgent unit * outcome string :=
  (updateMemory assistant "Let me check." None None a, Returned "checked").


End Scenarios2.

(** * Properties *)

(** ** The planning tool *)

Module PlanningProps.
Import JS Tool Planning Scenarios.

Lemma nonempty_Some (x : option string) (s : string) :
  nonempty x = Some s <-> x = Some s /\ s <> EmptyString.
Proof.
  unfold nonempty. destruct x as [t|]; [|naive_solver].
  destruct (String.eqb_spec t EmptyString); naive_solver.
Qed.

Lemma nonempty_None (x : option string) :
  nonempty x = None <-> x = None \/ x = Some EmptyString.
Proof.
  unfold nonempty. destruct x as [t|]; [|naive_solver].
  destruct (String.eqb_spec t EmptyString); naive_solver.
Qed.

Lemma every_string_strings (l : list string) : every_string (JArr (JStr <$> l)) = true.
Proof. unfold every_string; simpl. induction l; simpl; auto. Qed.

Lemma strings_of_strings (l : list string) : strings_of (JArr (JStr <$> l)) = l.
Proof. unfold strings_of; simpl. induction l; simpl; [done|]. by f_equal. Qed.

(** *** Well-formed plans *)

Lemma plan_wf_set_title t p : plan_wf p -> plan_wf (set_title t p).
Proof. by intros [? ?]. Qed.

Lemma plan_wf_set_status i st p : plan_wf p -> plan_wf (set_status i st p).
Proof. intros [? ?]. split; simpl; [by rewrite length_insert | done]. Qed.

Lemma plan_wf_set_notes i n p : plan_wf p -> plan_wf (set_notes i n p).
Proof. intros [? ?]. split; simpl; [done | by rewrite length_insert]. Qed.

Lemma element_index_spec (x : jsnum) (j : nat) :
  element_index x = Some j <-> x = NInt (Z.of_nat j).
Proof.
  destruct x as [z|b t| |neg]; simpl; try (split; discriminate).
  destruct (Z.leb_spec 0 z).
  - split; [intros [= <-]; f_equal; lia | intros [= ->]; f_equal; lia].
  - split; [done | intros [= ->]; lia].
Qed.

Lemma plan_wf_write_status x st p : plan_wf p -> plan_wf (write_status x st p).
Proof. unfold write_status. destruct (element_index x); auto using plan_wf_set_status. Qed.

Lemma plan_wf_write_notes x n p : plan_wf p -> plan_wf (write_notes x n p).
Proof. unfold write_notes. destruct (element_index x); auto using plan_wf_set_notes. Qed.

Lemma plan_wf_fresh pid t (l : list string) :
  plan_wf (mkPlan pid t l (replicate (length l) not_started)
                  (replicate (length l) EmptyString)).
Proof. split; simpl; by rewrite length_replicate. Qed.

Lemma plan_wf_carried pid t (l : list string) p :
  plan_wf (mkPlan pid t l (imap (carried_status (steps p) (step_statuses p)) l)
                  (imap (carried_note (steps p) (step_notes p)) l)).
Proof. split; simpl; by rewrite length_imap. Qed.

Lemma tool_wf_plans (self self' : PlanningTool) :
  plans self' = plans self -> tool_wf self -> tool_wf self'.
Proof. unfold tool_wf. intros ->. done. Qed.

Lemma tool_wf_insert (self self' : PlanningTool) pid p :
  plans self' = <[pid := p]> (plans self) ->
  pid <> EmptyString -> plan_wf p -> tool_wf self -> tool_wf self'.
Proof.
  unfold tool_wf. intros -> Hpid Hp Hwf k q.
  destruct (decide (pid = k)) as [->|Hne].
  - rewrite lookup_insert_eq. by intros [= <-].
  - rewrite lookup_insert_ne by done. apply Hwf.
Qed.

Lemma tool_wf_delete (self self' : PlanningTool) pid :
  plans self' = delete pid (plans self) -> tool_wf self -> tool_wf self'.
Proof.
  unfold tool_wf. intros -> Hwf k q Hk.
  apply lookup_delete_Some in Hk as [_ Hk]. by eapply Hwf.
Qed.

Lemma tool_wf_new : tool_wf new_PlanningTool.
Proof. intros k p. unfold new_PlanningTool; simpl. by rewrite lookup_empty. Qed.

(** The entry the loop of [updatePlan] computes at an index of the new
    steps, for a well-formed old plan. *)
Lemma carried_lookup (p : Plan) (newSteps : list string) (i : nat) (step : string) :
  plan_wf p ->
  newSteps !! i = Some step ->
  (i < length (steps p) /\ steps p !! i = Some step ->
     imap (carried_status (steps p) (step_statuses p)) newSteps !! i = step_statuses p !! i
     /\ imap (carried_note (steps p) (step_notes p)) newSteps !! i = step_notes p !! i)
  /\ (~ (i < length (steps p) /\ steps p !! i = Some step) ->
     imap (carried_status (steps p) (step_statuses p)) newSteps !! i = Some not_started
     /\ imap (carried_note (steps p) (step_notes p)) newSteps !! i = Some EmptyString).
Proof.
  intros [Hst Hnt] Hi. rewrite !list_lookup_imap, Hi. simpl.
  unfold carried_status, carried_note. split.
  - intros [Hlt Heq].
    rewrite bool_decide_true by done. rewrite bool_decide_true by done. simpl.
    destruct (lookup_lt_is_Some_2 (step_statuses p) i) as [s Hs]; [lia|].
    destruct (lookup_lt_is_Some_2 (step_notes p) i) as [n Hn]; [lia|].
    by rewrite Hs, Hn.
  - intros Hno.
    destruct (bool_decide (i < length (steps p))) eqn:H1;
      destruct (bool_decide (Some step = steps p !! i)) eqn:H2; simpl; try done.
    apply bool_decide_eq_true in H1, H2. naive_solver.
Qed.

Section Commands.
Variable formatPlan : Plan -> string.

Lemma createPlan_wf planId title steps self :
  tool_wf self -> tool_wf (createPlan formatPlan planId title steps self).1.
Proof.
  intros Hwf. unfold createPlan.
  destruct (nonempty planId) as [pid|] eqn:Hpid; [|done].
  apply nonempty_Some in Hpid as [_ Hpid].
  case_bool_decide; [done|].
  destruct (nonempty title) as [t|]; [|done].
  destruct (negb (truthy steps) || negb (isArray steps) || negb (every_string steps)); [done|].
  simpl. eapply tool_wf_insert; [done|done| |done]. apply plan_wf_fresh.
Qed.

Lemma updatePlan_wf planId title steps self :
  tool_wf self -> tool_wf (updatePlan formatPlan planId title steps self).1.
Proof.
  intros Hwf. unfold updatePlan.
  destruct (nonempty planId) as [pid|]; [|done].
  destruct (plans self !! pid) as [p|] eqn:Hp; [|done].
  destruct (Hwf pid p Hp) as [Hpid Hpwf].
  destruct (nonempty title) as [t|].
  - assert (Hwf1 : tool_wf (store pid (set_title t p) self)).
    { eapply tool_wf_insert; [done|done| |done]. by apply plan_wf_set_title. }
    destruct (truthy steps); [|done].
    destruct (negb (isArray steps) || negb (every_string steps)); [done|].
    simpl. eapply tool_wf_insert; [done|done| |exact Hwf1]. apply plan_wf_carried.
  - destruct (truthy steps); [|done].
    destruct (negb (isArray steps) || negb (every_string steps)); [done|].
    simpl. eapply tool_wf_insert; [done|done| |done]. apply plan_wf_carried.
Qed.

Lemma markStep_wf planId stepIndex stepStatus stepNotes self :
  tool_wf self -> tool_wf (markStep formatPlan planId stepIndex stepStatus stepNotes self).1.
Proof.
  intros Hwf. unfold markStep.
  destruct (resolve planId self) as [pid|]; [|done].
  destruct (plans self !! pid) as [p|] eqn:Hp; [|done].
  destruct (Hwf pid p Hp) as [Hpid Hpwf].
  destruct stepIndex as [i|]; [|done].
  destruct (num_ltb i 0 || num_geb i (Z.of_nat (length (steps p)))); [done|].
  destruct (invalid_status stepStatus); [done|].
  simpl. eapply tool_wf_insert; [done|done| |done].
  destruct (nonempty stepStatus ≫= status_of_string), (nonempty stepNotes);
    auto using plan_wf_write_status, plan_wf_write_notes.
Qed.

Lemma deletePlan_wf planId self :
  tool_wf self -> tool_wf (deletePlan planId self).1.
Proof.
  intros Hwf. unfold deletePlan.
  destruct (nonempty planId) as [pid|]; [|done].
  destruct (plans self !! pid); [|done].
  simpl. by eapply tool_wf_delete.
Qed.

Lemma listPlans_plans self : plans (listPlans self).1 = plans self.
Proof. unfold listPlans. by case_bool_decide. Qed.

Lemma getPlan_plans planId self : plans (getPlan formatPlan planId self).1 = plans self.
Proof.
  unfold getPlan. destruct (resolve planId self) as [pid|]; [|done].
  by destruct (plans self !! pid).
Qed.

Lemma setActivePlan_plans planId self :
  plans (setActivePlan formatPlan planId self).1 = plans self.
Proof.
  unfold setActivePlan. destruct (nonempty planId) as [pid|]; [|done].
  by destruct (plans self !! pid).
Qed.

(** Every command, whether it returns or throws, keeps the plans of the
    table well-formed. *)
Lemma execute_wf a self : tool_wf self -> tool_wf (execute formatPlan a self).1.
Proof.
  intros Hwf. unfold execute.
  repeat match goal with
         | |- context [if String.eqb ?x ?y then _ else _] => destruct (String.eqb x y)
         end;
    auto using createPlan_wf, updatePlan_wf, markStep_wf, deletePlan_wf.
  - eapply tool_wf_plans; [apply listPlans_plans | done].
  - eapply tool_wf_plans; [apply getPlan_plans | done].
  - eapply tool_wf_plans; [apply setActivePlan_plans | done].
Qed.

Lemma run_commands_wf cmds self : tool_wf self -> tool_wf (run_commands formatPlan cmds self).
Proof.
  unfold run_commands. revert self.
  induction cmds as [|a cmds IH]; intros self Hwf; simpl; [done|].
  apply IH. by apply execute_wf.
Qed.

(** C6.  After any sequence of commands issued to a freshly constructed
    planning tool, and so after each command of the sequence, whether it
    succeeded or failed, every plan stored in the table has as many
    statuses and as many notes as it has steps. *)
Theorem parallel_lists_invariant (cmds : list Args) (planId : string) (p : Plan) :
  plans (run_commands formatPlan cmds new_PlanningTool) !! planId = Some p ->
  length (steps p) = length (step_statuses p)
  /\ length (step_statuses p) = length (step_notes p).
Proof.
  intros Hp.
  destruct (run_commands_wf cmds new_PlanningTool tool_wf_new planId p Hp) as [_ [H1 H2]].
  split; congruence.
Qed.

(** *** [create] *)

(** The four guards of [createPlan], each leaving the tool as it was. *)
Lemma createPlan_guards planId title steps self :
  nonempty planId = None
  \/ (exists pid, planId = Some pid /\ is_Some (plans self !! pid))
  \/ nonempty title = None
  \/ isArray steps = false
  \/ every_string steps = false ->
  exists msg, createPlan formatPlan planId title steps self = (self, throwTool msg).
Proof.
  unfold createPlan. intros H.
  destruct (nonempty planId) as [pid|] eqn:Hid; [|eauto].
  case_bool_decide as Hhas; [eauto|].
  destruct (nonempty title) as [t|] eqn:Ht; [|eauto].
  destruct H as [H|[(pid' & -> & H)|[H|[H|H]]]]; try discriminate.
  - apply nonempty_Some in Hid as [[= ->] _]. done.
  - rewrite H, orb_true_r. simpl. eauto.
  - rewrite H, orb_true_r. eauto.
Qed.

(** A successful [createPlan] stores a plan whose statuses are all
    [not_started] and whose notes are all empty, one per step, and makes
    it the active plan. *)
Lemma createPlan_success planId title steps self self' r :
  createPlan formatPlan planId title steps self = (self', Returned r) ->
  exists pid t l,
    nonempty planId = Some pid /\ nonempty title = Some t /\ l = strings_of steps
    /\ plans self !! pid = None
    /\ plans self' = <[pid := mkPlan pid t l (replicate (length l) not_started)
                                     (replicate (length l) EmptyString)]> (plans self)
    /\ currentPlanId self' = Some pid.
Proof.
  unfold createPlan. intros H.
  destruct (nonempty planId) as [pid|]; [|done].
  case_bool_decide as Hhas; [done|].
  destruct (nonempty title) as [t|]; [|done].
  destruct (negb (truthy steps) || negb (isArray steps) || negb (every_string steps));
    [done|].
  injection H as <- _. exists pid, t, (strings_of steps).
  repeat split; try done.
  by apply eq_None_not_Some.
Qed.

(** C2.  [createPlan] accepts an empty list of steps: on a fresh tool,
    [create("p1", "Trip", [])] returns normally, stores a plan with no
    steps and makes it active, although the message of the guard asks for a
    non-empty list. *)
Theorem createPlan_accepts_empty_steps :
  let '(self', r) :=
    createPlan formatPlan (Some "p1") (Some "Trip") (JArr []) new_PlanningTool in
  r = Returned (result_of ("Plan created successfully with ID: p1" ++ nl ++ nl
                           ++ formatPlan (mkPlan "p1" "Trip" [] [] [])))
  /\ plans self' !! "p1" = Some (mkPlan "p1" "Trip" [] [] [])
  /\ currentPlanId self' = Some "p1".
Proof. unfold createPlan; simpl. repeat split. Qed.

(** *** [mark_step] *)

(** Whenever [markStep] throws, the tool is the one it was called on. *)
Lemma markStep_throw_unchanged planId stepIndex stepStatus stepNotes self self' e :
  markStep formatPlan planId stepIndex stepStatus stepNotes self = (self', Thrown e) ->
  self' = self.
Proof.
  unfold markStep. intros H.
  destruct (resolve planId self) as [pid|]; [|by injection H].
  destruct (plans self !! pid) as [p|]; [|by injection H].
  destruct stepIndex as [i|]; [|by injection H].
  destruct (num_ltb i 0 || num_geb i (Z.of_nat (length (steps p)))); [by injection H|].
  destruct (invalid_status stepStatus); [by injection H|]. done.
Qed.

(** A [mark_step] with a valid status and an index in range writes the
    status, and the note when one is given, at that index. *)
Lemma markStep_writes pid i s st stepNotes self p :
  pid <> EmptyString -> plans self !! pid = Some p -> plan_wf p ->
  (0 <= i < Z.of_nat (length (steps p)))%Z ->
  s <> EmptyString -> status_of_string s = Some st ->
  exists self' r p',
    markStep formatPlan (Some pid) (Some (NInt i)) (Some s) stepNotes self
    = (self', Returned r)
    /\ plans self' !! pid = Some p'
    /\ step_statuses p' !! Z.to_nat i = Some st
    /\ (forall n, nonempty stepNotes = Some n -> step_notes p' !! Z.to_nat i = Some n).
Proof.
  intros Hpid Hp [Hst Hnt] Hi Hs Hparse. unfold markStep, resolve.
  assert (nonempty (Some pid) = Some pid) as -> by (by apply nonempty_Some).
  rewrite Hp. unfold num_ltb, num_geb.
  replace ((i <? 0)%Z || (i >=? Z.of_nat (length (steps p)))%Z) with false
    by (symmetry; apply orb_false_iff; lia).
  unfold invalid_status.
  assert (nonempty (Some s) = Some s) as -> by (by apply nonempty_Some).
  rewrite bool_decide_true by (by rewrite Hparse). simpl. rewrite Hparse.
  unfold write_status, write_notes, element_index.
  replace (0 <=? i)%Z with true by lia.
  eexists _, _, _. split; [reflexivity|]. simpl. rewrite lookup_insert_eq.
  split; [reflexivity|].
  destruct (nonempty stepNotes) as [n|]; simpl.
  - split; [apply list_lookup_insert_eq; lia|].
    intros ? [= <-]. apply list_lookup_insert_eq. lia.
  - split; [apply list_lookup_insert_eq; lia|done].
Qed.

(** The guard on the index rejects the numbers that compare below 0 or at
    or above the count of the steps, and those only. *)
Lemma index_guard (x : jsnum) (n : nat) :
  num_ltb x 0 || num_geb x (Z.of_nat n) = true <-> below_or_beyond x n.
Proof.
  unfold below_or_beyond. rewrite orb_true_iff.
  destruct x as [z|b t| |neg]; simpl; [lia|lia|naive_solver|].
  destruct neg; naive_solver.
Qed.

(** A [mark_step] whose index is missing, or is a number below 0 or at or
    above the count of the steps of the plan the call resolves to, throws a
    [ToolError] and returns the very tool it was given: no plan, step,
    status or note has changed. *)
Lemma markStep_bad_index_fails planId stepIndex stepStatus stepNotes self :
  stepIndex = None
  \/ (exists x pid p,
        stepIndex = Some x /\ resolve planId self = Returned pid
        /\ plans self !! pid = Some p
        /\ below_or_beyond x (length (steps p))) ->
  exists e,
    markStep formatPlan planId stepIndex stepStatus stepNotes self = (self, Thrown e)
    /\ err_class e = ToolError.
Proof.
  unfold markStep. intros [->|(x & pid & p & -> & -> & -> & Hx)].
  - destruct (resolve planId self) as [pid|e] eqn:Hres.
    + destruct (plans self !! pid); eexists; split; done.
    + exists e. split; [done|].
      unfold resolve in Hres.
      destruct (nonempty planId); [done|].
      destruct (nonempty (currentPlanId self)); [done|].
      by injection Hres as <-.
  - apply index_guard in Hx. rewrite Hx.
    eexists; split; done.
Qed.

(** C9.  A [mark_step] that succeeds changes, in the plan it resolves to,
    nothing but the status and the note at the given index: the steps and
    every other index stay, an absent (or empty) status keeps the status,
    an absent or empty note keeps the note, a note that was not empty is
    not empty afterwards; the other plans and the active plan stay too. *)
Theorem markStep_frame planId stepIndex stepStatus stepNotes self self' r :
  markStep formatPlan planId stepIndex stepStatus stepNotes self = (self', Returned r) ->
  exists x pid p p',
    stepIndex = Some x
    /\ (~ below_or_beyond x (length (steps p))
        /\ forall i, x = NInt i -> (0 <= i < Z.of_nat (length (steps p)))%Z)
    /\ resolve planId self = Returned pid
    /\ plans self !! pid = Some p /\ plans self' !! pid = Some p'
    /\ plan_id p' = plan_id p /\ title p' = title p /\ steps p' = steps p
    /\ (forall j, x <> NInt (Z.of_nat j) ->
          step_statuses p' !! j = step_statuses p !! j
          /\ step_notes p' !! j = step_notes p !! j)
    /\ (nonempty stepStatus = None -> step_statuses p' = step_statuses p)
    /\ (nonempty stepNotes = None -> step_notes p' = step_notes p)
    /\ (forall j n, x = NInt (Z.of_nat j) -> step_notes p !! j = Some n ->
          n <> EmptyString -> step_notes p' !! j <> Some EmptyString)
    /\ (forall q, q <> pid -> plans self' !! q = plans self !! q)
    /\ currentPlanId self' = currentPlanId self.
Proof.
  unfold markStep. intros H.
  destruct (resolve planId self) as [pid|]; [|done].
  destruct (plans self !! pid) as [p|] eqn:Hp; [|done].
  destruct stepIndex as [x|]; [|done].
  destruct (num_ltb x 0 || num_geb x (Z.of_nat (length (steps p)))) eqn:Hx; [done|].
  assert (Hin : ~ below_or_beyond x (length (steps p))).
  { intros Hout. apply index_guard in Hout. congruence. }
  destruct (invalid_status stepStatus); [done|].
  injection H as <- _.
  eexists x, pid, p, _. simpl. rewrite lookup_insert_eq.
  split; [done|]. split; [split; [done|]; intros i ->; simpl in Hin; lia|].
  split; [done|]. split; [done|]. split; [done|].
  assert (Hother : forall j, x <> NInt (Z.of_nat j) -> element_index x <> Some j).
  { intros j Hj Hk. by apply element_index_spec in Hk. }
  assert (Hat : forall j, x = NInt (Z.of_nat j) -> element_index x = Some j).
  { intros j Hj. by apply element_index_spec. }
  unfold write_status, write_notes.
  destruct (nonempty stepStatus ≫= status_of_string) as [st|] eqn:Hst,
           (nonempty stepNotes) as [n|] eqn:Hn; simpl;
    split_and!; try done;
    try (intros j Hj; apply Hother in Hj; destruct (element_index x) as [k|]; simpl;
         [by rewrite ?list_lookup_insert_ne by congruence|done]);
    try (by destruct (element_index x));
    try (intros Hnone; by rewrite Hnone in Hst);
    try (intros q Hq; by rewrite lookup_insert_ne by done).
  - intros j m Hj Hm Hne. rewrite (Hat j Hj). simpl.
    rewrite list_lookup_insert_eq by (by eapply lookup_lt_Some).
    apply nonempty_Some in Hn as [_ Hn]. congruence.
  - intros j m Hj Hm Hne. destruct (element_index x); simpl; congruence.
  - intros j m Hj Hm Hne. rewrite (Hat j Hj). simpl.
    rewrite list_lookup_insert_eq by (by eapply lookup_lt_Some).
    apply nonempty_Some in Hn as [_ Hn]. congruence.
  - intros j m Hj Hm Hne. congruence.
Qed.

(** *** [update] *)

(** An [update] with a list of steps, on a well-formed plan. *)
Lemma updatePlan_carry pid title' (newSteps : list string) self p :
  pid <> EmptyString ->
  plans self !! pid = Some p ->
  plan_wf p ->
  exists self' r p',
    updatePlan formatPlan (Some pid) title' (JArr (JStr <$> newSteps)) self
      = (self', Returned r)
    /\ plans self' !! pid = Some p'
    /\ steps p' = newSteps
    /\ forall i step, newSteps !! i = Some step ->
         (i < length (steps p) /\ steps p !! i = Some step ->
            step_statuses p' !! i = step_statuses p !! i
            /\ step_notes p' !! i = step_notes p !! i)
         /\ (~ (i < length (steps p) /\ steps p !! i = Some step) ->
            step_statuses p' !! i = Some not_started
            /\ step_notes p' !! i = Some EmptyString).
Proof.
  intros Hpid Hp Hwf. unfold updatePlan.
  assert (nonempty (Some pid) = Some pid) as -> by (by apply nonempty_Some).
  rewrite Hp.
  simpl truthy. cbv iota.
  rewrite every_string_strings, strings_of_strings. simpl.
  destruct (nonempty title') as [t|]; simpl;
    (eexists _, _, _; split; [reflexivity|]);
    unfold store; simpl; rewrite lookup_insert_eq;
    (split; [reflexivity|]); (split; [reflexivity|]);
    simpl; intros i step Hi; by apply carried_lookup.
Qed.

(** C5.  Whatever commands the tool has executed, an [update] of a plan
    it stores with a list of steps stores that list; at every index [i] of
    it the status and the note are the old ones when the old list has a
    step at [i] with the very same text, and are [not_started] and the
    empty note otherwise (another text, or [i] past the old length). *)
Theorem updatePlan_carries_unchanged_steps (cmds : list Args) pid title'
    (newSteps : list string) p :
  plans (run_commands formatPlan cmds new_PlanningTool) !! pid = Some p ->
  exists self' r p',
    updatePlan formatPlan (Some pid) title' (JArr (JStr <$> newSteps))
               (run_commands formatPlan cmds new_PlanningTool)
      = (self', Returned r)
    /\ plans self' !! pid = Some p'
    /\ steps p' = newSteps
    /\ forall i step, newSteps !! i = Some step ->
         (i < length (steps p) /\ steps p !! i = Some step ->
            step_statuses p' !! i = step_statuses p !! i
            /\ step_notes p' !! i = step_notes p !! i)
         /\ (~ (i < length (steps p) /\ steps p !! i = Some step) ->
            step_statuses p' !! i = Some not_started
            /\ step_notes p' !! i = Some EmptyString).
Proof.
  intros Hp.
  destruct (run_commands_wf cmds new_PlanningTool tool_wf_new pid p Hp) as [Hpid Hwf].
  by apply updatePlan_carry.
Qed.

End Commands.

(** *** The properties on the trip plan *)

Lemma trip_tool_plan : plans Scenarios.trip_tool !! "p1" = Some trip_plan.
Proof. vm_compute. reflexivity. Defined.

Lemma parallel_lists_invariant_witness :
  plans (run_commands Scenarios.title_only Scenarios.trip_session new_PlanningTool) !! "p1"
  = Some trip_plan
  /\ length (steps trip_plan) = length (step_statuses trip_plan)
  /\ length (step_statuses trip_plan) = length (step_notes trip_plan).
Proof.
  split; [exact trip_tool_plan|].
  apply (parallel_lists_invariant Scenarios.title_only Scenarios.trip_session "p1" trip_plan).
  exact trip_tool_plan.
Defined.

Example markStep_index_past_end :
  exists e,
    markStep Scenarios.title_only (Some "p1") (Some (NInt 2)) (Some "completed") None
             Scenarios.trip_tool
    = (Scenarios.trip_tool, Thrown e)
    /\ err_class e = ToolError.
Proof.
  apply (markStep_bad_index_fails Scenarios.title_only (Some "p1") (Some (NInt 2))
           (Some "completed") None Scenarios.trip_tool).
  right. exists (NInt 2), "p1", trip_plan.
  split; [reflexivity|]. split; [reflexivity|]. split; [exact trip_tool_plan|].
  right. simpl. lia.
Qed.

(** C4.  The guard of [markStep] does not turn away every index outside
    the range of the steps: [NaN] is within no range, and compares neither
    below 0 nor at or above the count.  On the trip plan, which has two
    steps, [mark_step("p1", NaN, "completed", "soon")] returns normally
    with the report of an updated step; no step, status or note of the
    plan is another than before. *)
Theorem markStep_accepts_NaN :
  ~ within_range NaN (length (steps trip_plan))
  /\ markStep Scenarios.title_only (Some "p1") (Some NaN) (Some "completed") (Some "soon")
              Scenarios.trip_tool
     = (Scenarios.trip_tool,
        Returned (result_of ("Step NaN updated in plan 'p1'." ++ nl ++ nl ++ "Trip"))).
Proof. split; [simpl; tauto|]. vm_compute. reflexivity. Qed.

Lemma markStep_frame_witness :
  exists p',
    plans trip_noted.1 !! "p1" = Some p'
    /\ steps p' = steps trip_plan
    /\ step_statuses p' = step_statuses trip_plan
    /\ step_notes p' !! 0 = Some EmptyString.
Proof.
  destruct (markStep_frame Scenarios.title_only (Some "p1") (Some (NInt 1)) None
              (Some "window seat") Scenarios.trip_tool trip_noted.1
              (result_of ("Step 1 updated in plan 'p1'." ++ nl ++ nl ++ "Trip")))
    as (x & pid & p & p' & Hx & _ & Hres & Hp & Hp' & _ & _ & Hsteps & Hother & Hst & _).
  { vm_compute. reflexivity. }
  injection Hx as <-. injection Hres as <-.
  rewrite trip_tool_plan in Hp. injection Hp as <-.
  exists p'. split; [exact Hp'|]. split; [exact Hsteps|].
  split; [apply Hst; reflexivity|].
  destruct (Hother 0) as [_ Hn]; [discriminate|]. exact Hn.
Defined.

Lemma updatePlan_carries_unchanged_steps_witness :
  exists self' r p',
    updatePlan Scenarios.title_only (Some "p1") None
               (JArr (JStr <$> ["Book flight"; "Book train"; "Pack"])) Scenarios.trip_tool
    = (self', Returned r)
    /\ plans self' !! "p1" = Some p'
    /\ steps p' = ["Book flight"; "Book train"; "Pack"]
    /\ step_statuses p' = [completed; not_started; not_started].
Proof.
  destruct (updatePlan_carries_unchanged_steps Scenarios.title_only Scenarios.trip_session
              "p1" None ["Book flight"; "Book train"; "Pack"] trip_plan trip_tool_plan)
    as (self' & r & p' & Hrun & Hp' & Hsteps & Hcarry).
  fold Scenarios.trip_tool in Hrun.
  exists self', r, p'. split; [exact Hrun|]. split; [exact Hp'|]. split; [exact Hsteps|].
  destruct (Hcarry 0 "Book flight" eq_refl) as [[H0 _] _]; [split; [simpl; lia|reflexivity]|].
  destruct (Hcarry 1 "Book train" eq_refl) as [_ [H1 _]]; [intros [_ ?]; discriminate|].
  destruct (Hcarry 2 "Pack" eq_refl) as [_ [H2 _]]; [intros [? _]; simpl in *; lia|].
  assert (Hlen : length (step_statuses p') = 3).
  { revert Hrun Hp'. vm_compute. intros [= <- _]. intros [= <-]. reflexivity. }
  destruct (step_statuses p') as [|s0 [|s1 [|s2 [|? ?]]]]; try discriminate.
  simpl in H0, H1, H2. by simplify_eq.
Defined.

End PlanningProps.

(** ** Tool results *)

Module ToolProps.
Import JS Tool Claims.

Lemma truthy_text (t : string) : truthy (JStr t) = true <-> t <> EmptyString.
Proof. simpl. destruct (String.eqb_spec t EmptyString); naive_solver. Qed.

(** [combineFields] on two fields of texts. *)
Lemma combineFields_text (field otherField : option string) :
  exists result,
    combineFields (str_val field) (str_val otherField) true = Returned result
    /\ combined_field field otherField (val_str result).
Proof.
  unfold combineFields, combined_field, or_else.
  destruct field as [[|c a]|], otherField as [[|c' b]|]; simpl;
    eexists; (split; [reflexivity|]); done.
Qed.

(** [combineFields] on two outputs. *)
Lemma combineFields_output (field otherField : jsval) :
  exists result,
    combineFields field otherField true = Returned result
    /\ combined_output field otherField result.
Proof.
  unfold combineFields, combined_output, or_else.
  destruct (truthy field) eqn:Hf, (truthy otherField) eqn:Ho; simpl;
    eexists; (split; [reflexivity|]); split_and!; try done.
  - intros a b -> -> _ _. done.
  - intros a b -> -> Ha Hb. apply truthy_text in Ha, Hb. congruence.
  - intros a b -> -> Ha Hb. apply truthy_text in Ha, Hb. congruence.
  - intros a b -> -> Ha Hb. apply truthy_text in Ha, Hb. congruence.
Qed.

(** [combine] passes [concatenate = true] three times, so it returns. *)
Lemma combine_returns r1 r2 : is_thrown (combine r1 r2) = false.
Proof.
  unfold combine.
  destruct (combineFields_output (output r1) (output r2)) as (o & -> & _).
  destruct (combineFields_text (error r1) (error r2)) as (e & -> & _).
  by destruct (combineFields_text (system r1) (system r2)) as (s & -> & _).
Qed.

Example combine_example :
  combine (mkToolResult (JStr "ab") None (Some "s")) (mkToolResult (JStr "cd") (Some "e") None)
  = Returned (mkToolResult (JStr "abcd") (Some "e") (Some "s")).
Proof. reflexivity. Qed.



End ToolProps.

(** ** The agent loop *)

Module AgentProps.
Import JS Schema Agent Claims.

Section Base.
Context {E : Type}.
Implicit Types (self a : BaseAgent E).

(** *** [withState] and [run]: the state on exit *)

(** Whatever the callback does, [withState] leaves the state it found:
    the assignment of the [catch] block is overwritten by [finally]. *)
Lemma withState_restores {T} newState (callback : BaseAgent E -> option (BaseAgent E * outcome T))
    self self' o :
  withState newState callback self = Some (self', o) -> state self' = state self.
Proof.
  unfold withState. intros H.
  destruct (callback _) as [[a [v|e]]|]; simplify_eq; done.
Qed.

Lemma run_restores_state step fuel request self self' o :
  run step fuel request self = Some (self', o) -> state self' = state self.
Proof.
  unfold run. case_bool_decide as Hidle; simpl; intros H.
  - apply withState_restores in H. rewrite H. unfold with_request.
    by destruct (nonempty request).
  - by simplify_eq.
Qed.

(** An exception of the loop leaves [run] as it is, with the agent back in
    the state it was run from. *)
Lemma run_rethrows step fuel request self a e :
  state self = IDLE ->
  run_loop step fuel [] (set_state RUNNING (with_request request self)) = Some (a, Thrown e) ->
  run step fuel request self = Some (set_state IDLE a, Thrown e).
Proof.
  intros Hidle Hloop. unfold run, withState.
  rewrite bool_decide_true by done. simpl. rewrite Hloop.
  unfold with_request. destruct (nonempty request); simpl; by rewrite Hidle.
Qed.

(** *** The step counter *)

Lemma check_stuck_currentStep a : currentStep (check_stuck a) = currentStep a.
Proof. unfold check_stuck. by destruct (isStuck a). Qed.


Lemma run_loop_currentStep step fuel results self self' o :
  (forall a, currentStep (step a).1 = currentStep a) ->
  run_loop step fuel results self = Some (self', o) ->
  (currentStep self <= currentStep self')%Z.
Proof.
  intros Hstep. revert results self.
  induction fuel as [|fuel IH]; intros results self; simpl.
  - destruct (_ && _); [done|]. intros; simplify_eq. lia.
  - destruct (_ && _); [|intros; simplify_eq; lia].
    specialize (Hstep (set_currentStep (currentStep self + 1) self)).
    destruct (step _) as [a [r|e]]; simpl in Hstep.
    + intros H. apply IH in H. rewrite check_stuck_currentStep in H. lia.
    + intros; simplify_eq. lia.
Qed.

Lemma withState_currentStep {T} newState
    (callback : BaseAgent E -> option (BaseAgent E * outcome T)) self self' o :
  withState newState callback self = Some (self', o) ->
  exists a, callback (set_state newState self) = Some (a, o) /\ currentStep self' = currentStep a.
Proof.
  unfold withState. intros H.
  destruct (callback _) as [[a [v|e]]|]; simplify_eq; eauto.
Qed.

Lemma run_currentStep step fuel request self self' o :
  (forall a, currentStep (step a).1 = currentStep a) ->
  run step fuel request self = Some (self', o) ->
  (currentStep self <= currentStep self')%Z.
Proof.
  intros Hstep. unfold run. case_bool_decide as Hidle; simpl; [|intros; simplify_eq; lia].
  intros Hrun. apply withState_currentStep in Hrun as (a & Hcb & ->).
  destruct (run_loop _ _ _ _) as [[b [rs|e]]|] eqn:Hloop; simplify_eq.
  - apply run_loop_currentStep in Hloop; [|done].
    simpl in Hloop. unfold with_request in Hloop. by destruct (nonempty request).
  - apply run_loop_currentStep in Hloop; [|done].
    simpl in Hloop. unfold with_request in Hloop. by destruct (nonempty request).
Qed.

Lemma set_state_same self : set_state (state self) self = self.
Proof. by destruct self. Qed.

Lemma set_state_twice s s' self : set_state s (set_state s' self) = set_state s self.
Proof. done. Qed.

(** C10.  [run] never resets [currentStep]: when the step of the agent
    leaves the counter alone, it is at least as large after a call as
    before.  An idle agent whose counter has reached [maxSteps] runs no
    step at all: whatever its step would do, and with any bound on the
    iterations, the call returns the marker of the exhausted budget alone,
    and the agent is as before but for the request added to its memory. *)
Theorem run_counter_never_reset step fuel request self :
  state self = IDLE ->
  ((forall a, currentStep (step a).1 = currentStep a) ->
   forall self' o, run step fuel request self = Some (self', o) ->
     (currentStep self <= currentStep self')%Z)
  /\ ((maxSteps self <= currentStep self)%Z ->
      run step fuel request self
      = Some (with_request request self,
              Returned ("Terminated: Reached max steps (" ++ pretty (maxSteps self) ++ ")"))).
Proof.
  intros Hidle. split.
  - intros Hstep self' o. by apply run_currentStep.
  - intros Hmax. unfold run. rewrite bool_decide_true by done. simpl.
    assert (Hc : currentStep (with_request request self) = currentStep self)
      by (unfold with_request; by destruct (nonempty request)).
    assert (Hm : maxSteps (with_request request self) = maxSteps self)
      by (unfold with_request; by destruct (nonempty request)).
    unfold withState.
    assert (Hloop : run_loop step fuel [] (set_state RUNNING (with_request request self))
                    = Some (set_state RUNNING (with_request request self), Returned [])).
    { destruct fuel; simpl; rewrite Hc, Hm;
        (replace (currentStep self <? maxSteps self)%Z with false by lia); done. }
    rewrite Hloop. simpl. rewrite Hc, Hm.
    replace (currentStep self >=? maxSteps self)%Z with true by lia.
    simpl. by rewrite set_state_twice, set_state_same.
Qed.

(** *** The loop ends *)



(** *** Stuck detection *)

Lemma duplicateCount_repeats m c (msgs : list Message) :
  content m = Some c ->
  duplicateCount m (take (length msgs - 1) msgs) = repeats c msgs.
Proof. unfold duplicateCount, repeats. by intros ->. Qed.

Lemma isStuck_iff self : isStuck self = true <-> stuck_nonempty self.
Proof.
  unfold isStuck, stuck_nonempty. cbv zeta.
  case_bool_decide as Hlen.
  { split; [done|]. intros [? _]. lia. }
  destruct (last (messages (memory self))) as [m|] eqn:Hlast.
  2:{ apply last_None in Hlast. rewrite Hlast in Hlen. simpl in Hlen. lia. }
  unfold str_truthy.
  destruct (nonempty (content m)) as [c|] eqn:Hc; simpl.
  - apply PlanningProps.nonempty_Some in Hc as [Hc Hne].
    rewrite (duplicateCount_repeats m c) by done.
    split.
    + intros H. split; [lia|]. exists m, c. repeat split; try done. lia.
    + intros (_ & m' & c' & Hm' & Hc' & _ & Hcount).
      simplify_eq. lia.
  - split; [done|]. intros (_ & m' & c' & Hm' & Hc' & Hne & _).
    simplify_eq. apply PlanningProps.nonempty_None in Hc as [Hc|Hc]; congruence.
Qed.

(** An iteration of the loop of [run] whose step returns: the loop goes
    on with the result pushed, from the agent the step left, and from that
    agent with the corrective instruction put before its next-step prompt
    when [isStuck] answers [true] on it. *)
Lemma run_loop_iteration step fuel results self a stepResult :
  (currentStep self <? maxSteps self)%Z = true ->
  state self <> FINISHED ->
  step (set_currentStep (currentStep self + 1) self) = (a, Returned stepResult) ->
  run_loop step (S fuel) results self
  = run_loop step fuel
      (push results ("Step " ++ pretty (currentStep a) ++ ": " ++ stepResult))
      (if isStuck a
       then set_nextStepPrompt
              (Some (stuckPrompt ++ nl ++ default "undefined" (nextStepPrompt a))) a
       else a).
Proof.
  intros Hlt Hstate Hstep. simpl. rewrite Hlt, bool_decide_false by done. simpl.
  rewrite Hstep. unfold check_stuck, handleStuckState.
  by destruct (isStuck a).
Qed.

(** C7 (amended).  [isStuck] answers [true] exactly when the memory holds
    at least two messages, the content of the last is neither [null] nor
    the empty string, and at least [duplicateThreshold] of the messages
    before it are assistant messages with that very content.  When it
    answers [true] after a step of [run], the loop goes on from the agent
    with the corrective instruction before its next-step prompt; and when
    that step was the last of the budget, [run] returns and leaves the
    agent with that prompt. *)
Theorem isStuck_detects_repeats self :
  (isStuck self = true <-> stuck_nonempty self)
  /\ (forall step fuel results a stepResult,
        (currentStep self <? maxSteps self)%Z = true ->
        state self <> FINISHED ->
        step (set_currentStep (currentStep self + 1) self) = (a, Returned stepResult) ->
        isStuck a = true ->
        run_loop step (S fuel) results self
        = run_loop step fuel
            (push results ("Step " ++ pretty (currentStep a) ++ ": " ++ stepResult))
            (set_nextStepPrompt
               (Some (stuckPrompt ++ nl ++ default "undefined" (nextStepPrompt a))) a))
  /\ (forall step fuel request a stepResult,
        state self = IDLE ->
        maxSteps self = (currentStep self + 1)%Z ->
        step (set_currentStep (currentStep self + 1)
                (set_state RUNNING (with_request request self)))
        = (a, Returned stepResult) ->
        currentStep a = (currentStep self + 1)%Z ->
        maxSteps a = maxSteps self ->
        isStuck a = true ->
        exists self' text,
          run step (S fuel) request self = Some (self', Returned text)
          /\ nextStepPrompt self'
             = Some (stuckPrompt ++ nl ++ default "undefined" (nextStepPrompt a))
          /\ memory self' = memory a).
Proof.
  split; [apply isStuck_iff|]. split.
  - intros step fuel results a stepResult Hlt Hstate Hstep Hstuck.
    rewrite (run_loop_iteration step fuel results self a stepResult) by done.
    by rewrite Hstuck.
  - intros step fuel request a stepResult Hidle Hmax Hstep Hc Hm Hstuck.
    assert (Hwc : currentStep (with_request request self) = currentStep self)
      by (unfold with_request; by destruct (nonempty request)).
    assert (Hwm : maxSteps (with_request request self) = maxSteps self)
      by (unfold with_request; by destruct (nonempty request)).
    unfold run. rewrite bool_decide_true by done. cbn [negb]. unfold withState.
    rewrite (run_loop_iteration step fuel []
               (set_state RUNNING (with_request request self)) a stepResult);
      [|simpl; rewrite Hwc, Hwm; lia|done|simpl; by rewrite Hwc].
    rewrite Hstuck.
    set (a' := set_nextStepPrompt _ a).
    assert (Hend : forall rs, run_loop step fuel rs a' = Some (a', Returned rs)).
    { intros rs. destruct fuel; simpl; rewrite Hc, Hm, Hmax;
        by rewrite Z.ltb_irrefl. }
    rewrite Hend. simpl. eexists _, _. split; [reflexivity|]. done.
Qed.

End Base.

(** The default threshold of the constructor is 2. *)
Lemma default_duplicateThreshold {E} name d sp np mem ms (e : E) :
  duplicateThreshold (new_BaseAgent name d sp np mem ms None e) = 2%Z.
Proof. done. Qed.

(** C7, as stated, fails: after three assistant messages with the empty
    text the last content is not [null] and is repeated twice before, yet
    [isStuck] answers [false]. *)
Lemma isStuck_ignores_empty_content :
  ~ (isStuck Scenarios.silent_agent = true <-> stuck_nonnull Scenarios.silent_agent).
Proof.
  intros [_ H].
  assert (Hfalse : isStuck Scenarios.silent_agent = false) by reflexivity.
  rewrite H in Hfalse; [discriminate|].
  split; [simpl; lia|].
  exists (assistantMessage (Some EmptyString)), EmptyString.
  repeat split. vm_compute. discriminate.
Qed.

Lemma isStuck_detects_repeats_witness :
  state Scenarios2.last_step_agent = IDLE
  /\ maxSteps Scenarios2.last_step_agent = (currentStep Scenarios2.last_step_agent + 1)%Z
  /\ exists self' text,
       run Scenarios2.repeating_step 1 None Scenarios2.last_step_agent
       = Some (self', Returned text)
       /\ nextStepPrompt self' = Some (stuckPrompt ++ nl ++ "What next?").
Proof.
  split; [reflexivity|]. split; [reflexivity|].
  destruct (isStuck_detects_repeats Scenarios2.last_step_agent) as (_ & _ & Hrun).
  destruct (Hrun Scenarios2.repeating_step 0 None
              (Scenarios2.repeating_step
                 (set_currentStep 10 (set_state RUNNING Scenarios2.last_step_agent))).1
              "checked")
    as (self' & text & Hrun' & Hprompt & _); try reflexivity.
  exists self', text. split; [exact Hrun'|exact Hprompt].
Defined.

Lemma run_counter_never_reset_witness :
  state Scenarios.spent_agent = IDLE
  /\ (maxSteps Scenarios.spent_agent <= currentStep Scenarios.spent_agent)%Z
  /\ run Scenarios.noting_step 5 None Scenarios.spent_agent
     = Some (Scenarios.spent_agent, Returned "Terminated: Reached max steps (10)").
Proof.
  split; [reflexivity|]. split; [vm_compute; discriminate|].
  apply (run_counter_never_reset Scenarios.noting_step 5 None Scenarios.spent_agent).
  - reflexivity.
  - vm_compute. discriminate.
Defined.

End AgentProps.

(** ** The tool-calling agent *)

Module ToolCallProps.
Import JS Tool Schema Agent Collection ToolCallAgent Claims.

Section WithBoundary.
Context {W : Type}.
Variable askTool :
  list Message -> option (list Message) -> list (string * string) -> ToolChoice
  -> outcome Response.
Variable JSON_parse : string -> option jsval.
Variable toLowerCase : string -> string.
Implicit Types (self : BaseAgent (Fields W)).

Lemma same_budget_refl self : same_budget self self.
Proof. done. Qed.








(** With [toolChoices = none], [think] answers whether the response has
    text, and keeps the proposed tool calls in [toolCalls]. *)
Lemma think_none self tools response :
  availableTools (ext self) = Some tools ->
  toolChoices (ext self) = none ->
  (forall msgs sys ps c, askTool msgs sys ps c = Returned response) ->
  exists self',
    think askTool self = (self', Returned (str_truthy (resp_content response)))
    /\ toolCalls (ext self') = default [] (resp_tool_calls response).
Proof.
  intros Htools Hnone Hask. unfold think.
  set (self1 := match nonempty (nextStepPrompt self) with
                | Some p => push_message (userMessage p) self
                | None => self
                end).
  assert (Hext : ext self1 = ext self) by (subst self1; by destruct (nonempty _)).
  unfold think_try. rewrite Hext, Htools, Hask. simpl.
  rewrite Hext, Hnone. simpl.
  destruct (str_truthy (resp_content response)); eexists; split; reflexivity.
Qed.

End WithBoundary.

(** C3.  With the policy [none] the proposed tool calls are not
    discarded: when the model answers with text and asks for [terminate],
    [think] answers [true] and keeps the call, and the [act] of the same
    step executes it, which writes the observation of the tool into the
    memory and finishes the agent. *)
Theorem none_policy_executes_tool_calls :
  let self := Scenarios.toolcall_agent none [Terminate] in
  let '(self1, shouldAct) := think Scenarios.eager_model self in
  let '(self2, result) := act Scenarios.parse_empty_object ascii_toLowerCase self1 in
  shouldAct = Returned true
  /\ toolCalls (ext self1) = [Scenarios.terminate_call]
  /\ result = Returned ("Observed output of cmd `terminate` executed:" ++ nl
                        ++ "The interaction has been completed with status: undefined")
  /\ last (messages (memory self2))
     = Some (toolMessage ("Observed output of cmd `terminate` executed:" ++ nl
                          ++ "The interaction has been completed with status: undefined")
                         "terminate" "call_1")
  /\ state self2 = FINISHED.
Proof. vm_compute. repeat split. Qed.

(** C1.  An exception in the loop of [run] reaches the caller, but the
    agent is not left in [ERROR]: with the policy [required] and a model
    that proposes no tool call, [act] throws in the first step, [run]
    throws the same error, and the state of the agent is [IDLE] again. *)
Theorem run_error_leaves_agent_idle :
  let self := Scenarios.toolcall_agent required [] in
  exists self',
    run (step Scenarios.text_only_model Scenarios.parse_empty_object ascii_toLowerCase)
        1 (Some "do X") self
    = Some (self', Thrown (mkError PlainError TOOL_CALL_REQUIRED))
    /\ state self = IDLE
    /\ currentStep self' = 1%Z
    /\ state self' = IDLE.
Proof. eexists. vm_compute. repeat split. Qed.

End ToolCallProps.

(** ** Strings *)

Module StringFacts.

Lemma append_nil_r (s : string) : s ++ EmptyString = s.
Proof.
  induction s as [|c s IH]; [done|].
  change (String c (s ++ EmptyString) = String c s). by rewrite IH.
Qed.

Lemma append_assoc (s1 s2 s3 : string) : (s1 ++ s2) ++ s3 = s1 ++ (s2 ++ s3).
Proof.
  induction s1 as [|c s1 IH]; [done|].
  change (String c ((s1 ++ s2) ++ s3) = String c (s1 ++ (s2 ++ s3))). by rewrite IH.
Qed.

Lemma append_cons (c : Ascii.ascii) (s1 s2 : string) :
  String c s1 ++ s2 = String c (s1 ++ s2).
Proof. reflexivity. Qed.

Lemma append_nonempty_l (s1 s2 : string) : s1 <> EmptyString -> s1 ++ s2 <> EmptyString.
Proof. by destruct s1. Qed.

Lemma concat_empty_cons (x : string) (xs : list string) :
  String.concat EmptyString (x :: xs) = x ++ String.concat EmptyString xs.
Proof. destruct xs as [|y ys]; [symmetry; apply append_nil_r|done]. Qed.

End StringFacts.

(** ** The plan table across commands *)

Module PlanningMore.
Import JS Tool Planning Invariants Scenarios.
Import PlanningProps.

Lemma table_ok_new : table_ok new_PlanningTool.
Proof.
  split; [|split; [|split]].
  - intros k p. unfold new_PlanningTool; simpl. by rewrite lookup_empty.
  - intros id. done.
  - constructor.
  - intros k. unfold new_PlanningTool; simpl. rewrite lookup_empty.
    split; [by intros ?%elem_of_nil | by intros [? ?]].
Qed.

(** Replacing a stored plan by one with the same [plan_id]. *)
Lemma table_ok_store pid p p' self :
  plans self !! pid = Some p -> plan_id p' = plan_id p ->
  table_ok self -> table_ok (store pid p' self).
Proof.
  intros Hp Hid (Hk & Ha & Hnd & Ho). split; [|split; [|split]].
  - intros k q. unfold store; simpl.
    destruct (decide (pid = k)) as [->|Hne].
    + rewrite lookup_insert_eq. intros [= <-]. rewrite Hid. by apply Hk.
    + rewrite lookup_insert_ne by done. apply Hk.
  - intros id Hcur. unfold store in *; simpl in *.
    apply lookup_insert_is_Some'. right. by apply Ha.
  - done.
  - intros k. unfold store; simpl. rewrite Ho.
    destruct (decide (pid = k)) as [->|Hne].
    + rewrite lookup_insert_eq, Hp. split; intros _; by eexists.
    + by rewrite lookup_insert_ne.
Qed.

Lemma table_ok_pointer id self :
  is_Some (plans self !! id) -> table_ok self ->
  table_ok (mkPlanningTool (plans self) (plan_order self) (Some id)).
Proof.
  intros Hid (Hk & Ha & Ho). split; [done|]. split; [|done].
  intros id' [= <-]. done.
Qed.

Section Commands.
Variable formatPlan : Plan -> string.

Lemma createPlan_ok planId title steps self :
  table_ok self -> table_ok (createPlan formatPlan planId title steps self).1.
Proof.
  intros Hok. unfold createPlan.
  destruct (nonempty planId) as [pid|]; [|done].
  case_bool_decide as Hhas; [done|].
  destruct (nonempty title) as [t|]; [|done].
  destruct (negb (truthy steps) || negb (isArray steps) || negb (every_string steps)); [done|].
  destruct Hok as (Hk & Ha & Hnd & Ho). simpl.
  split; [|split; [|split]]; unfold keys_match, active_stored; simpl.
  - intros k q. destruct (decide (pid = k)) as [->|Hne].
    + rewrite lookup_insert_eq. by intros [= <-].
    + rewrite lookup_insert_ne by done. apply Hk.
  - intros id [= <-]. rewrite lookup_insert_eq. by eexists.
  - unfold push. apply NoDup_app. split; [done|]. split; [|apply NoDup_singleton].
    intros k Hin ->%list_elem_of_singleton. apply Hhas. by apply Ho.
  - intros k. unfold push. rewrite elem_of_app, list_elem_of_singleton, Ho.
    rewrite lookup_insert_is_Some. destruct (decide (pid = k)); naive_solver.
Qed.

Lemma updatePlan_ok planId title steps self :
  table_ok self -> table_ok (updatePlan formatPlan planId title steps self).1.
Proof.
  intros Hok. unfold updatePlan.
  destruct (nonempty planId) as [pid|]; [|done].
  destruct (plans self !! pid) as [p|] eqn:Hp; [|done].
  destruct (nonempty title) as [t|].
  - assert (Hok1 : table_ok (store pid (set_title t p) self))
      by (by eapply table_ok_store).
    destruct (truthy steps); [|done].
    destruct (negb (isArray steps) || negb (every_string steps)); [done|].
    simpl. apply (table_ok_store pid (set_title t p)); [|reflexivity|exact Hok1].
    unfold store; simpl. apply lookup_insert_eq.
  - destruct (truthy steps); [|done].
    destruct (negb (isArray steps) || negb (every_string steps)); [done|].
    simpl. by eapply table_ok_store.
Qed.

Lemma markStep_ok planId stepIndex stepStatus stepNotes self :
  table_ok self -> table_ok (markStep formatPlan planId stepIndex stepStatus stepNotes self).1.
Proof.
  intros Hok. unfold markStep.
  destruct (resolve planId self) as [pid|]; [|done].
  destruct (plans self !! pid) as [p|] eqn:Hp; [|done].
  destruct stepIndex as [i|]; [|done].
  destruct (num_ltb i 0 || num_geb i (Z.of_nat (length (steps p)))); [done|].
  destruct (invalid_status stepStatus); [done|].
  simpl. eapply table_ok_store; [done| |done].
  unfold write_status, write_notes.
  by destruct (nonempty stepStatus ≫= status_of_string), (nonempty stepNotes),
              (element_index i).
Qed.

Lemma setActivePlan_ok planId self :
  table_ok self -> table_ok (setActivePlan formatPlan planId self).1.
Proof.
  intros Hok. unfold setActivePlan.
  destruct (nonempty planId) as [pid|]; [|done].
  destruct (plans self !! pid) as [p|] eqn:Hp; [|done].
  simpl. apply table_ok_pointer; [by rewrite Hp|done].
Qed.

Lemma deletePlan_ok planId self :
  table_ok self -> table_ok (deletePlan planId self).1.
Proof.
  intros (Hk & Ha & Hnd & Ho). unfold deletePlan.
  destruct (nonempty planId) as [pid|]; [|done].
  destruct (plans self !! pid) as [p|] eqn:Hp; [|done].
  simpl. split; [|split; [|split]]; unfold keys_match, active_stored; simpl.
  - intros k q Hq. apply lookup_delete_Some in Hq as [_ Hq]. by apply Hk.
  - intros id. case_bool_decide as Hcur; [done|]. intros Hid.
    rewrite lookup_delete_ne by congruence. by apply Ha.
  - by apply NoDup_filter.
  - intros k. rewrite list_elem_of_filter, Ho, lookup_delete_is_Some. naive_solver.
Qed.

Lemma listPlans_same self : (listPlans self).1 = self.
Proof. unfold listPlans. by case_bool_decide. Qed.

Lemma getPlan_same planId self : (getPlan formatPlan planId self).1 = self.
Proof.
  unfold getPlan. destruct (resolve planId self) as [pid|]; [|done].
  by destruct (plans self !! pid).
Qed.

Lemma execute_ok a self : table_ok self -> table_ok (execute formatPlan a self).1.
Proof.
  intros Hok. unfold execute.
  repeat match goal with
         | |- context [if String.eqb ?x ?y then _ else _] => destruct (String.eqb x y)
         end;
    auto using createPlan_ok, updatePlan_ok, markStep_ok, deletePlan_ok, setActivePlan_ok.
  - by rewrite listPlans_same.
  - by rewrite getPlan_same.
Qed.

Lemma run_commands_ok cmds self : table_ok self -> table_ok (run_commands formatPlan cmds self).
Proof.
  unfold run_commands. revert self.
  induction cmds as [|a cmds IH]; intros self Hok; simpl; [done|].
  apply IH. by apply execute_ok.
Qed.

(** X1.  After any sequence of commands on a fresh tool the active plan,
    when there is one, is a plan of the table: the pointer never dangles. *)
Theorem active_plan_is_stored (cmds : list Args) (id : string) :
  currentPlanId (run_commands formatPlan cmds new_PlanningTool) = Some id ->
  exists p, plans (run_commands formatPlan cmds new_PlanningTool) !! id = Some p
            /\ plan_id p = id.
Proof.
  intros Hcur.
  destruct (run_commands_ok cmds new_PlanningTool table_ok_new) as (Hk & Ha & _).
  destruct (Ha id Hcur) as [p Hp]. exists p. split; [done|]. by apply Hk.
Qed.

(** X2.  After any sequence of commands on a fresh tool every plan of the
    table carries, as its [plan_id], the key it is filed under. *)
Theorem plan_id_is_key (cmds : list Args) (k : string) (p : Plan) :
  plans (run_commands formatPlan cmds new_PlanningTool) !! k = Some p -> plan_id p = k.
Proof.
  intros Hp.
  destruct (run_commands_ok cmds new_PlanningTool table_ok_new) as (Hk & _).
  by apply Hk.
Qed.

(** *** [list] *)

Lemma list_fold (self : PlanningTool) (ks : list string) (init : string) :
  foldl (fun output planId =>
           match plans self !! planId with
           | Some plan => output ++ list_line self planId plan
           | None => output
           end) init ks
  = init ++ String.concat EmptyString
             (map (fun r => list_line self r.1 r.2)
                  (omap (fun k => (fun p => (k, p)) <$> plans self !! k) ks)).
Proof.
  revert init. induction ks as [|k ks IH]; intros init; simpl.
  - by rewrite StringFacts.append_nil_r.
  - rewrite IH. destruct (plans self !! k) as [p|]; [|done].
    cbn [omap list_omap fmap option_fmap option_map map fst snd].
    by rewrite StringFacts.concat_empty_cons, StringFacts.append_assoc.
Qed.

Lemma rows_of_spec (self : PlanningTool) :
  order_exact self ->
  (rows_of self).*1 = plan_order self
  /\ NoDup (rows_of self).*1
  /\ forall k p, (k, p) ∈ rows_of self <-> plans self !! k = Some p.
Proof.
  intros [Hnd Ho]. unfold rows_of.
  assert (Hfst : forall ks, (forall k, k ∈ ks -> is_Some (plans self !! k)) ->
            (omap (fun k => (fun p => (k, p)) <$> plans self !! k) ks).*1 = ks).
  { induction ks as [|k ks IH]; intros Hks; simpl; [done|].
    destruct (Hks k) as [p Hp]; [by left|]. rewrite Hp. simpl. f_equal.
    apply IH. intros k' Hk'. apply Hks. by right. }
  assert (Hkeys : forall k, k ∈ plan_order self -> is_Some (plans self !! k))
    by (intros k Hk; by apply Ho).
  split; [by apply Hfst|]. split.
  - by rewrite Hfst.
  - intros k p. rewrite list_elem_of_omap. split.
    + intros (k' & _ & Hk'). destruct (plans self !! k') as [q|] eqn:Hq; simplify_eq/=. done.
    + intros Hp. exists k. split; [apply Ho; by rewrite Hp|]. by rewrite Hp.
Qed.

(** A command changes the order of the keys as [after_command] has it. *)
Lemma execute_order (a : Args) (self : PlanningTool) :
  plan_order (execute formatPlan a self).1
  = after_command a (execute formatPlan a self).2 (plan_order self).
Proof.
  unfold execute, after_command.
  destruct (String.eqb_spec (command a) "create") as [Hc|Hc].
  { unfold createPlan. destruct (nonempty (arg_plan_id a)) as [pid|]; [|done].
    case_bool_decide; [done|].
    destruct (nonempty (arg_title a)); [|done].
    by destruct (negb _ || negb _ || negb _). }
  destruct (String.eqb_spec (command a) "update") as [Hu|Hu].
  { unfold updatePlan. destruct (nonempty (arg_plan_id a)) as [pid|]; [|done].
    destruct (plans self !! pid); [|done].
    rewrite Hu. simpl.
    destruct (nonempty (arg_title a)); destruct (truthy _); try done;
      by destruct (negb _ || negb _). }
  destruct (String.eqb_spec (command a) "list") as [Hl|Hl].
  { unfold listPlans. rewrite Hl. simpl.
    case_bool_decide; by destruct (nonempty (arg_plan_id a)). }
  destruct (String.eqb_spec (command a) "get") as [Hg|Hg].
  { rewrite getPlan_same. rewrite Hg. simpl.
    by destruct (getPlan _ _ _) as [? [?|?]], (nonempty (arg_plan_id a)). }
  destruct (String.eqb_spec (command a) "set_active") as [Hs|Hs].
  { unfold setActivePlan. rewrite Hs. simpl.
    destruct (nonempty (arg_plan_id a)) as [pid|]; [|done].
    by destruct (plans self !! pid). }
  destruct (String.eqb_spec (command a) "mark_step") as [Hm|Hm].
  { assert (Hsame : plan_order (markStep formatPlan (arg_plan_id a) (arg_step_index a)
                      (arg_step_status a) (arg_step_notes a) self).1 = plan_order self).
    { unfold markStep. destruct (resolve _ self) as [pid|]; [|done].
      destruct (plans self !! pid); [|done].
      destruct (arg_step_index a); [|done].
      destruct (_ || _); [done|]. by destruct (invalid_status _). }
    rewrite Hsame, Hm. simpl.
    by destruct (markStep _ _ _ _ _ _) as [? [?|?]], (nonempty (arg_plan_id a)). }
  destruct (String.eqb_spec (command a) "delete") as [Hd|Hd].
  { unfold deletePlan. destruct (nonempty (arg_plan_id a)) as [pid|]; [|done].
    by destruct (plans self !! pid). }
  simpl. by destruct (nonempty (arg_plan_id a)).
Qed.

(** The keys of the table are in the order in which the plans that are
    left were created. *)
Lemma plan_order_created (cmds : list Args) :
  plan_order (run_commands formatPlan cmds new_PlanningTool) = created formatPlan cmds.
Proof.
  unfold created, run_commands.
  assert (H : forall self ids, ids = plan_order self ->
            let final := foldl (fun state a =>
                                  let '(self', o) := execute formatPlan a state.1 in
                                  (self', after_command a o state.2))
                               (self, ids) cmds in
            final.1 = foldl (fun self a => (execute formatPlan a self).1) self cmds
            /\ final.2 = plan_order final.1).
  { induction cmds as [|a cmds IH]; intros self ids Hids; simpl; [done|].
    pose proof (execute_order a self) as Ho.
    destruct (execute formatPlan a self) as [self' o]. simpl in *.
    apply IH. by rewrite Ho, Hids. }
  destruct (H new_PlanningTool [] eq_refl) as [H1 H2].
  by rewrite H2, H1.
Qed.

(** X3.  After any sequence of commands that has left plans in the table,
    [list] returns the heading followed by exactly one line for each
    stored plan, in the order in which the plans were created (the ids of
    the [create]s that returned, less those of the [delete]s that returned
    since), and leaves the tool as it is. *)
Theorem listPlans_one_line_per_plan (cmds : list Args) :
  let self := run_commands formatPlan cmds new_PlanningTool in
  plans self <> ∅ ->
  exists rows : list (string * Plan),
    rows.*1 = created formatPlan cmds
    /\ NoDup rows.*1
    /\ (forall k p, (k, p) ∈ rows <-> plans self !! k = Some p)
    /\ listPlans self
       = (self, Returned (result_of
            ("Available plans:" ++ nl
             ++ String.concat EmptyString (map (fun r => list_line self r.1 r.2) rows)))).
Proof.
  intros self Hne.
  destruct (run_commands_ok cmds new_PlanningTool table_ok_new) as (_ & _ & Ho).
  fold self in Ho. exists (rows_of self).
  destruct (rows_of_spec self Ho) as (Hkeys & Hnd & Hrows).
  split; [by rewrite Hkeys; apply plan_order_created|].
  split; [done|]. split; [done|].
  unfold listPlans. rewrite bool_decide_false by (by rewrite map_size_empty_iff).
  by rewrite list_fold.
Qed.

(** *** [delete] and [set_active] *)

(** X4.  Deleting a stored plan removes it and no other; when it was the
    active plan the pointer is cleared, so that a [get] without an id then
    fails for want of an active plan, and otherwise the pointer stays. *)
Theorem deletePlan_clears_active (pid : string) (self : PlanningTool) (p : Plan) :
  pid <> EmptyString ->
  plans self !! pid = Some p ->
  exists self',
    deletePlan (Some pid) self
    = (self', Returned (result_of ("Plan '" ++ pid ++ "' has been deleted.")))
    /\ plans self' !! pid = None
    /\ (forall q, q <> pid -> plans self' !! q = plans self !! q)
    /\ (currentPlanId self = Some pid ->
        currentPlanId self' = None
        /\ getPlan formatPlan None self'
           = (self', throwTool
                "No active plan. Please specify a plan_id or set an active plan."))
    /\ (currentPlanId self <> Some pid -> currentPlanId self' = currentPlanId self).
Proof.
  intros Hpid Hp. unfold deletePlan.
  assert (nonempty (Some pid) = Some pid) as -> by (by apply nonempty_Some).
  rewrite Hp. eexists. split; [reflexivity|]. simpl.
  split; [apply lookup_delete_eq|].
  split; [intros q Hq; by apply lookup_delete_ne|].
  split.
  - intros Hcur. rewrite bool_decide_true by done. split; [done|].
    reflexivity.
  - intros Hcur. by rewrite bool_decide_false by done.
Qed.

(** X5.  [set_active] on a stored plan changes the pointer and nothing
    else, and a [get] without an id then reports that plan. *)
Theorem setActivePlan_redirects_get (pid : string) (self : PlanningTool) (p : Plan) :
  pid <> EmptyString ->
  plans self !! pid = Some p ->
  exists self' r,
    setActivePlan formatPlan (Some pid) self = (self', Returned r)
    /\ plans self' = plans self
    /\ currentPlanId self' = Some pid
    /\ getPlan formatPlan None self' = (self', Returned (result_of (formatPlan p))).
Proof.
  intros Hpid Hp. unfold setActivePlan.
  assert (Hne : nonempty (Some pid) = Some pid) by (by apply nonempty_Some).
  rewrite Hne, Hp. eexists _, _. split; [reflexivity|]. simpl.
  split; [done|]. split; [done|].
  unfold getPlan, resolve. simpl (nonempty None). cbn [currentPlanId plans].
  by rewrite Hne, Hp.
Qed.

(** *** What a failing command leaves behind *)

Lemma createPlan_throw_same planId title steps self self' e :
  createPlan formatPlan planId title steps self = (self', Thrown e) ->
  self' = self /\ err_class e = ToolError.
Proof.
  unfold createPlan.
  destruct (nonempty planId) as [pid|]; [|by intros [= <- <-]].
  case_bool_decide; [by intros [= <- <-]|].
  destruct (nonempty title) as [t|]; [|by intros [= <- <-]].
  by destruct (negb (truthy steps) || negb (isArray steps) || negb (every_string steps));
    [intros [= <- <-]|].
Qed.

Lemma resolve_throw_class planId self e :
  resolve planId self = Thrown e -> err_class e = ToolError.
Proof.
  unfold resolve. destruct (nonempty planId); [done|].
  destruct (nonempty (currentPlanId self)); [done|]. by intros [= <-].
Qed.

Lemma getPlan_throw_same planId self self' e :
  getPlan formatPlan planId self = (self', Thrown e) ->
  self' = self /\ err_class e = ToolError.
Proof.
  unfold getPlan.
  destruct (resolve planId self) as [pid|e0] eqn:Hres.
  - by destruct (plans self !! pid); [|intros [= <- <-]].
  - intros [= <- <-]. split; [done|]. by eapply resolve_throw_class.
Qed.

Lemma setActivePlan_throw_same planId self self' e :
  setActivePlan formatPlan planId self = (self', Thrown e) ->
  self' = self /\ err_class e = ToolError.
Proof.
  unfold setActivePlan.
  destruct (nonempty planId) as [pid|]; [|by intros [= <- <-]].
  by destruct (plans self !! pid); [|intros [= <- <-]].
Qed.

Lemma markStep_throw_same planId stepIndex stepStatus stepNotes self self' e :
  markStep formatPlan planId stepIndex stepStatus stepNotes self = (self', Thrown e) ->
  self' = self /\ err_class e = ToolError.
Proof.
  unfold markStep.
  destruct (resolve planId self) as [pid|e0] eqn:Hres.
  - destruct (plans self !! pid) as [p|]; [|by intros [= <- <-]].
    destruct stepIndex as [i|]; [|by intros [= <- <-]].
    destruct (_ || _); [by intros [= <- <-]|].
    by destruct (invalid_status stepStatus); [intros [= <- <-]|].
  - intros [= <- <-]. split; [done|]. by eapply resolve_throw_class.
Qed.

Lemma deletePlan_throw_same planId self self' e :
  deletePlan planId self = (self', Thrown e) ->
  self' = self /\ err_class e = ToolError.
Proof.
  unfold deletePlan.
  destruct (nonempty planId) as [pid|]; [|by intros [= <- <-]].
  by destruct (plans self !! pid); [|intros [= <- <-]].
Qed.

(** X6.  Every command but [update] is all or nothing: when it throws, be
    it for a missing parameter, an unknown plan, a bad index or status, or
    an unknown command, the tool is exactly as it was before. *)
Theorem failed_command_changes_nothing (a : Args) (self self' : PlanningTool) (e : Error) :
  atomic_command (command a) ->
  execute formatPlan a self = (self', Thrown e) ->
  self' = self /\ err_class e = ToolError.
Proof.
  unfold atomic_command, execute. intros Hcmd.
  destruct (String.eqb_spec (command a) "create"); [apply createPlan_throw_same|].
  destruct (String.eqb_spec (command a) "update"); [done|].
  destruct (String.eqb_spec (command a) "list").
  { unfold listPlans. by case_bool_decide. }
  destruct (String.eqb_spec (command a) "get"); [apply getPlan_throw_same|].
  destruct (String.eqb_spec (command a) "set_active"); [apply setActivePlan_throw_same|].
  destruct (String.eqb_spec (command a) "mark_step"); [apply markStep_throw_same|].
  destruct (String.eqb_spec (command a) "delete"); [apply deletePlan_throw_same|].
  by intros [= <- <-].
Qed.

(** X7.  [update] is not all or nothing: given a new title together with
    steps that are not a list of strings, it throws, and the plan is left
    in the table under its new title. *)
Theorem updatePlan_failure_keeps_new_title (pid t : string) (steps : jsval)
    (self : PlanningTool) (p : Plan) :
  pid <> EmptyString -> t <> EmptyString ->
  plans self !! pid = Some p ->
  truthy steps = true ->
  isArray steps = false \/ every_string steps = false ->
  exists self',
    updatePlan formatPlan (Some pid) (Some t) steps self
    = (self', throwTool "Parameter `steps` must be a list of strings for command: update")
    /\ plans self' !! pid = Some (set_title t p)
    /\ (forall q, q <> pid -> plans self' !! q = plans self !! q).
Proof.
  intros Hpid Ht Hp Htruthy Hbad. unfold updatePlan.
  assert (nonempty (Some pid) = Some pid) as -> by (by apply nonempty_Some).
  assert (nonempty (Some t) = Some t) as -> by (by apply nonempty_Some).
  rewrite Hp, Htruthy.
  assert (negb (isArray steps) || negb (every_string steps) = true) as ->.
  { destruct Hbad as [-> | ->]; [done|by rewrite orb_true_r]. }
  eexists. split; [reflexivity|]. simpl.
  split; [apply lookup_insert_eq|]. intros q Hq. by apply lookup_insert_ne.
Qed.

(** *** [update] with the steps a plan already has *)

Lemma carried_status_same (p : Plan) :
  plan_wf p -> imap (carried_status (steps p) (step_statuses p)) (steps p) = step_statuses p.
Proof.
  intros [Hst _]. apply list_eq. intros i. rewrite list_lookup_imap.
  destruct (steps p !! i) as [s|] eqn:Hs; simpl.
  - pose proof (lookup_lt_Some _ _ _ Hs) as Hlt.
    destruct (lookup_lt_is_Some_2 (step_statuses p) i) as [st Hi]; [lia|].
    unfold carried_status.
    rewrite bool_decide_true by done. rewrite bool_decide_true by done. simpl.
    by rewrite Hi.
  - symmetry. apply lookup_ge_None. apply lookup_ge_None in Hs. lia.
Qed.

Lemma carried_note_same (p : Plan) :
  plan_wf p -> imap (carried_note (steps p) (step_notes p)) (steps p) = step_notes p.
Proof.
  intros [_ Hnt]. apply list_eq. intros i. rewrite list_lookup_imap.
  destruct (steps p !! i) as [s|] eqn:Hs; simpl.
  - pose proof (lookup_lt_Some _ _ _ Hs) as Hlt.
    destruct (lookup_lt_is_Some_2 (step_notes p) i) as [n Hi]; [lia|].
    unfold carried_note.
    rewrite bool_decide_true by done. rewrite bool_decide_true by done. simpl.
    by rewrite Hi.
  - symmetry. apply lookup_ge_None. apply lookup_ge_None in Hs. lia.
Qed.

Lemma store_same pid p self : plans self !! pid = Some p -> store pid p self = self.
Proof. intros Hp. unfold store. rewrite insert_id by done. by destruct self. Qed.

(** X8.  Whatever commands the tool has executed, an [update] of a stored
    plan that gives no title and the very steps the plan has changes
    nothing: the tool, with every status and note, is as before, and the
    report is that of the unchanged plan. *)
Theorem updatePlan_same_steps_changes_nothing (cmds : list Args) (pid : string) (p : Plan) :
  plans (run_commands formatPlan cmds new_PlanningTool) !! pid = Some p ->
  updatePlan formatPlan (Some pid) None (JArr (JStr <$> steps p))
             (run_commands formatPlan cmds new_PlanningTool)
  = (run_commands formatPlan cmds new_PlanningTool,
     Returned (result_of ("Plan updated successfully: " ++ pid ++ nl ++ nl ++ formatPlan p))).
Proof.
  intros Hp.
  destruct (run_commands_wf formatPlan cmds new_PlanningTool tool_wf_new pid p Hp)
    as [Hpid Hwf].
  unfold updatePlan.
  assert (nonempty (Some pid) = Some pid) as -> by (by apply nonempty_Some).
  rewrite Hp. simpl (nonempty None). cbv iota beta.
  simpl truthy. cbv iota.
  rewrite every_string_strings, strings_of_strings. simpl.
  rewrite carried_status_same, carried_note_same by done.
  assert (mkPlan (plan_id p) (title p) (steps p) (step_statuses p) (step_notes p) = p)
    as -> by (by destruct p).
  by rewrite store_same.
Qed.

(** *** [create], then [get] *)

(** X9.  A [create] that succeeds makes the new plan the active one: a
    [get] without an id right after it returns the report of the very plan
    whose report [create] returned, with the steps that were given. *)
Theorem createPlan_then_get (planId title : option string) (steps : jsval)
    (self self' : PlanningTool) (r : ToolResult) :
  createPlan formatPlan planId title steps self = (self', Returned r) ->
  exists p,
    nonempty planId = Some (plan_id p)
    /\ Planning.steps p = strings_of steps
    /\ r = result_of ("Plan created successfully with ID: " ++ plan_id p
                      ++ nl ++ nl ++ formatPlan p)
    /\ getPlan formatPlan None self' = (self', Returned (result_of (formatPlan p)))
    /\ getPlan formatPlan planId self' = (self', Returned (result_of (formatPlan p))).
Proof.
  unfold createPlan.
  destruct (nonempty planId) as [pid|] eqn:Hid; [|done].
  case_bool_decide as Hhas; [done|].
  destruct (nonempty title) as [t|]; [|done].
  destruct (negb (truthy steps) || negb (isArray steps) || negb (every_string steps));
    [done|].
  intros [= <- <-]. eexists (mkPlan pid t _ _ _). simpl.
  split; [done|]. split; [done|]. split; [done|].
  assert (Hpid : nonempty (Some pid) = Some pid).
  { apply nonempty_Some in Hid as [_ Hid]. by apply nonempty_Some. }
  split.
  - unfold getPlan, resolve. simpl (nonempty None). cbn [currentPlanId plans].
    by rewrite Hpid, lookup_insert_eq.
  - unfold getPlan, resolve. cbn [currentPlanId plans].
    by rewrite Hid, lookup_insert_eq.
Qed.

(** *** The progress counts *)

Lemma count_status_partition (p : Plan) :
  count_status completed p + count_status in_progress p
  + count_status blocked p + count_status not_started p
  = length (step_statuses p).
Proof.
  unfold count_status. induction (step_statuses p) as [|s l IH]; [done|].
  rewrite !filter_cons. destruct s; simpl; lia.
Qed.

(** X10.  For every plan of the table, after any sequence of commands, the
    four counts of the progress report (completed, in progress, blocked,
    not started) add up to the number of steps; so the completed steps
    are never more than the steps. *)
Theorem progress_counts_add_up (cmds : list Args) (pid : string) (p : Plan) :
  plans (run_commands formatPlan cmds new_PlanningTool) !! pid = Some p ->
  count_status completed p + count_status in_progress p
  + count_status blocked p + count_status not_started p
  = length (steps p)
  /\ count_status completed p <= length (steps p).
Proof.
  intros Hp.
  destruct (run_commands_wf formatPlan cmds new_PlanningTool tool_wf_new pid p Hp)
    as [_ [Hst _]].
  pose proof (count_status_partition p). lia.
Qed.

(** *** [mark_step], twice *)

(** X11.  [mark_step] is idempotent: a call that has succeeded, repeated
    on the tool it left, succeeds again with the same report and leaves
    that tool as it is. *)
Theorem markStep_twice (planId : option string) (stepIndex : option jsnum)
    (stepStatus stepNotes : option string) (self self' : PlanningTool) (r : ToolResult) :
  markStep formatPlan planId stepIndex stepStatus stepNotes self = (self', Returned r) ->
  markStep formatPlan planId stepIndex stepStatus stepNotes self' = (self', Returned r).
Proof.
  unfold markStep.
  destruct (resolve planId self) as [pid|] eqn:Hres; [|done].
  destruct (plans self !! pid) as [p|] eqn:Hp; [|done].
  destruct stepIndex as [x|]; [|done].
  destruct (num_ltb x 0 || num_geb x (Z.of_nat (length (steps p)))) eqn:Hx; [done|].
  destruct (invalid_status stepStatus) eqn:Hinv; [done|].
  intros [= <- <-].
  assert (Hres' : forall q, resolve planId (store pid q self) = Returned pid).
  { intros q. unfold resolve in *. by destruct (nonempty planId). }
  rewrite Hres'. unfold store at 1. cbn [plans]. rewrite lookup_insert_eq.
  unfold write_notes, write_status, store.
  destruct (nonempty stepStatus ≫= status_of_string) as [st|],
           (nonempty stepNotes) as [n|], (element_index x) as [k|];
    cbn [steps set_notes set_status plans plan_order currentPlanId];
    rewrite Hx, insert_insert_eq; unfold set_notes, set_status; simpl;
    by rewrite ?list_insert_insert_eq.
Qed.

End Commands.

Lemma active_plan_is_stored_witness :
  currentPlanId (run_commands title_only trip_session new_PlanningTool) = Some "p1"
  /\ exists p, plans (run_commands title_only trip_session new_PlanningTool) !! "p1" = Some p
               /\ plan_id p = "p1".
Proof.
  split; [reflexivity|].
  apply (active_plan_is_stored title_only trip_session "p1"). reflexivity.
Defined.

Lemma plan_id_is_key_witness :
  plans (run_commands title_only trip_session new_PlanningTool) !! "p1" = Some trip_plan
  /\ plan_id trip_plan = "p1".
Proof.
  split; [exact trip_tool_plan|].
  exact (plan_id_is_key title_only trip_session "p1" trip_plan trip_tool_plan).
Defined.

Lemma two_plans_nonempty :
  plans (run_commands title_only Scenarios2.two_plan_session new_PlanningTool) <> ∅.
Proof.
  intros H.
  assert (Hp : is_Some (plans (run_commands title_only Scenarios2.two_plan_session
                                 new_PlanningTool) !! "p1"))
    by (vm_compute; by eexists).
  rewrite H, lookup_empty in Hp. by destruct Hp.
Defined.

(** The plan [p1] is listed before [p0], which was created after it. *)
Lemma listPlans_one_line_per_plan_witness :
  created title_only Scenarios2.two_plan_session = ["p1"; "p0"]
  /\ exists rows : list (string * Plan),
       rows.*1 = ["p1"; "p0"]
       /\ (listPlans (run_commands title_only Scenarios2.two_plan_session
                                   new_PlanningTool)).2
          = Returned (result_of
              ("Available plans:" ++ nl
               ++ String.concat EmptyString
                    (map (fun r => list_line (run_commands title_only
                                                Scenarios2.two_plan_session
                                                new_PlanningTool) r.1 r.2) rows))).
Proof.
  assert (Hcreated : created title_only Scenarios2.two_plan_session = ["p1"; "p0"])
    by (vm_compute; reflexivity).
  split; [exact Hcreated|].
  destruct (listPlans_one_line_per_plan title_only Scenarios2.two_plan_session
              two_plans_nonempty) as (rows & Hkeys & _ & _ & Hlist).
  exists rows. split; [by rewrite Hkeys|]. by rewrite Hlist.
Defined.

Lemma deletePlan_clears_active_witness :
  currentPlanId trip_tool = Some "p1"
  /\ exists self',
       deletePlan (Some "p1") trip_tool
       = (self', Returned (result_of "Plan 'p1' has been deleted."))
       /\ currentPlanId self' = None
       /\ getPlan title_only None self'
          = (self', throwTool
               "No active plan. Please specify a plan_id or set an active plan.").
Proof.
  split; [reflexivity|].
  destruct (deletePlan_clears_active title_only "p1" trip_tool trip_plan)
    as (self' & Hdel & _ & _ & Hactive & _); [discriminate|exact trip_tool_plan|].
  exists self'. split; [exact Hdel|]. apply Hactive. reflexivity.
Defined.

(** After the two-plan session [p0] is active; [set_active("p1")] moves
    the pointer. *)
Lemma setActivePlan_redirects_get_witness :
  currentPlanId (run_commands title_only Scenarios2.two_plan_session new_PlanningTool)
  = Some "p0"
  /\ exists self' r,
       setActivePlan title_only (Some "p1")
         (run_commands title_only Scenarios2.two_plan_session new_PlanningTool)
       = (self', Returned r)
       /\ currentPlanId self' = Some "p1"
       /\ getPlan title_only None self' = (self', Returned (result_of "Trip")).
Proof.
  split; [reflexivity|].
  destruct (setActivePlan_redirects_get title_only "p1"
              (run_commands title_only Scenarios2.two_plan_session new_PlanningTool)
              trip_plan)
    as (self' & r & Hset & _ & Hcur & Hget); [discriminate|vm_compute; reflexivity|].
  exists self', r. split; [exact Hset|]. split; [exact Hcur|exact Hget].
Defined.

Lemma failed_command_changes_nothing_witness :
  execute title_only (mkArgs "delete" (Some "p2") None JNull None None None) trip_tool
  = (trip_tool, throwTool "No plan found with ID: p2")
  /\ trip_tool = trip_tool
  /\ err_class (mkError ToolError "No plan found with ID: p2") = ToolError.
Proof.
  assert (H : execute title_only (mkArgs "delete" (Some "p2") None JNull None None None)
                trip_tool
              = (trip_tool, throwTool "No plan found with ID: p2"))
    by (vm_compute; reflexivity).
  split; [exact H|].
  apply (failed_command_changes_nothing title_only
           (mkArgs "delete" (Some "p2") None JNull None None None) trip_tool trip_tool
           (mkError ToolError "No plan found with ID: p2")); [discriminate|exact H].
Defined.

Lemma updatePlan_failure_keeps_new_title_witness :
  exists self',
    updatePlan title_only (Some "p1") (Some "Holiday") (JStr "Book flight") trip_tool
    = (self', throwTool "Parameter `steps` must be a list of strings for command: update")
    /\ plans self' !! "p1" = Some (set_title "Holiday" trip_plan)
    /\ (forall q, q <> "p1" -> plans self' !! q = plans trip_tool !! q).
Proof.
  apply (updatePlan_failure_keeps_new_title title_only "p1" "Holiday" (JStr "Book flight")
           trip_tool trip_plan);
    [discriminate|discriminate|exact trip_tool_plan|reflexivity|left; reflexivity].
Defined.

Lemma updatePlan_same_steps_changes_nothing_witness :
  updatePlan title_only (Some "p1") None (JArr [JStr "Book flight"; JStr "Book hotel"])
             trip_tool
  = (trip_tool, Returned (result_of ("Plan updated successfully: p1" ++ nl ++ nl ++ "Trip"))).
Proof.
  exact (updatePlan_same_steps_changes_nothing title_only trip_session "p1" trip_plan
           trip_tool_plan).
Defined.

Lemma createPlan_then_get_witness :
  exists p,
    nonempty (Some "p2") = Some (plan_id p)
    /\ steps p = strings_of (JArr [JStr "Pack"])
    /\ result_of ("Plan created successfully with ID: p2" ++ nl ++ nl ++ "Weekend")
       = result_of ("Plan created successfully with ID: " ++ plan_id p
                    ++ nl ++ nl ++ title_only p)
    /\ getPlan title_only None
         (createPlan title_only (Some "p2") (Some "Weekend") (JArr [JStr "Pack"]) trip_tool).1
       = ((createPlan title_only (Some "p2") (Some "Weekend") (JArr [JStr "Pack"])
             trip_tool).1,
          Returned (result_of (title_only p)))
    /\ getPlan title_only (Some "p2")
         (createPlan title_only (Some "p2") (Some "Weekend") (JArr [JStr "Pack"]) trip_tool).1
       = ((createPlan title_only (Some "p2") (Some "Weekend") (JArr [JStr "Pack"])
             trip_tool).1,
          Returned (result_of (title_only p))).
Proof.
  apply (createPlan_then_get title_only (Some "p2") (Some "Weekend") (JArr [JStr "Pack"])
           trip_tool).
  vm_compute. reflexivity.
Defined.

Lemma progress_counts_add_up_witness :
  count_status completed trip_plan + count_status in_progress trip_plan
  + count_status blocked trip_plan + count_status not_started trip_plan
  = length (steps trip_plan)
  /\ count_status completed trip_plan <= length (steps trip_plan).
Proof.
  exact (progress_counts_add_up title_only trip_session "p1" trip_plan trip_tool_plan).
Defined.

Lemma markStep_twice_witness :
  markStep title_only (Some "p1") (Some (NInt 1)) None (Some "window seat") trip_noted.1
  = (trip_noted.1,
     Returned (result_of ("Step 1 updated in plan 'p1'." ++ nl ++ nl ++ "Trip"))).
Proof.
  apply (markStep_twice title_only (Some "p1") (Some (NInt 1)) None (Some "window seat")
           trip_tool).
  vm_compute. reflexivity.
Defined.

End PlanningMore.

(** ** The conversation memory *)

Module MemoryProps.
Import JS Schema Claims2.

Lemma slice_last_suffix {A} (n : nat) (l : list A) : slice_last n l `suffix_of` l.
Proof. unfold slice_last. case_bool_decide; [done|]. apply suffix_drop. Qed.

Lemma slice_last_length {A} (n : nat) (l : list A) :
  length (slice_last n l) = if bool_decide (n = 0) then length l else n `min` length l.
Proof. unfold slice_last. case_bool_decide; [done|]. rewrite length_drop. lia. Qed.

Lemma slice_suffix {A} (start : Z) (l : list A) : slice start l `suffix_of` l.
Proof. unfold slice. destruct (_ <? _)%Z; [apply slice_last_suffix|apply suffix_drop]. Qed.

(** [slice(-cap)] for a limit that is not negative: the last [cap]. *)
Lemma slice_limit {A} (cap : Z) (l : list A) :
  (0 <= cap)%Z -> slice (- cap) l = slice_last (Z.to_nat cap) l.
Proof.
  intros Hcap. unfold slice. destruct (Z.ltb_spec (- cap) 0).
  - do 2 f_equal. lia.
  - assert (cap = 0%Z) as -> by lia. done.
Qed.

(** [slice(-cap)] for a negative limit: all but the first [-cap]. *)
Lemma slice_negative_limit {A} (cap : Z) (l : list A) :
  (cap < 0)%Z -> slice (- cap) l = drop (Z.to_nat (- cap)) l.
Proof. intros Hcap. unfold slice. by destruct (Z.ltb_spec (- cap) 0); [lia|]. Qed.

Lemma trim_push (cap : Z) (l : list Message) (m : Message) :
  (0 <= cap)%Z -> trim cap (push (trim cap l) m) = trim cap (push l m).
Proof.
  intros Hcap. unfold trim at 2. case_bool_decide as Hlen; [|done].
  unfold trim, push. rewrite !slice_limit by done. unfold slice_last.
  rewrite !length_app. simpl.
  destruct (decide (cap = 0%Z)) as [->|Hne].
  - rewrite !(bool_decide_true (Z.to_nat 0 = 0)) by done. by repeat case_bool_decide.
  - rewrite !(bool_decide_false (Z.to_nat cap = 0)) by lia.
    rewrite length_drop.
    rewrite !bool_decide_true by lia.
    rewrite drop_app_le by (rewrite length_drop; lia).
    rewrite drop_drop, drop_app_le by lia.
    do 2 f_equal. lia.
Qed.

Lemma addMessage_trim (m : Message) (self : Memory) :
  addMessage m self = mkMemory (trim (maxMessages self) (push (messages self) m))
                               (maxMessages self).
Proof. unfold addMessage, trim. by case_bool_decide. Qed.

Lemma addMessages_trim (new : list Message) (self : Memory) :
  addMessages new self = mkMemory (trim (maxMessages self) (messages self ++ new)%list)
                                  (maxMessages self).
Proof. unfold addMessages, trim. by case_bool_decide. Qed.

Lemma addMessage_last (m : Message) (self : Memory) :
  (0 <= maxMessages self)%Z -> last (messages (addMessage m self)) = Some m.
Proof.
  intros Hcap. rewrite addMessage_trim. simpl. unfold trim, push.
  case_bool_decide as Hlen; [|by rewrite last_snoc].
  rewrite slice_limit by done. unfold slice_last.
  case_bool_decide as Hzero; [by rewrite last_snoc|].
  rewrite length_app in *. simpl in *.
  rewrite drop_app_le by lia. by rewrite last_snoc.
Qed.

(** X12.  [addMessage] keeps a suffix of the old messages followed by the
    new one, and the limit as it is.  With a limit that is not negative the
    message just added is the last one, and the number kept is the smaller
    of the limit and the old number plus one, unless the limit is 0: a
    memory built with [maxMessages = 0] never evicts anything.  With a
    negative limit [-k] every call drops the [k] oldest of the messages,
    the new one among them when there are no more: such a memory never
    grows. *)
Theorem addMessage_keeps_newest (m : Message) (self : Memory) :
  messages (addMessage m self) `suffix_of` (messages self ++ [m])%list
  /\ maxMessages (addMessage m self) = maxMessages self
  /\ ((0 <= maxMessages self)%Z ->
      last (messages (addMessage m self)) = Some m
      /\ length (messages (addMessage m self))
         = (if bool_decide (maxMessages self = 0%Z) then length (messages self) + 1
            else Z.to_nat (maxMessages self) `min` (length (messages self) + 1)))
  /\ ((maxMessages self < 0)%Z ->
      messages (addMessage m self)
      = drop (Z.to_nat (- maxMessages self)) (messages self ++ [m])%list
      /\ length (messages (addMessage m self)) <= length (messages self)).
Proof.
  split_and!.
  - rewrite addMessage_trim. simpl. unfold trim, push.
    case_bool_decide; [apply slice_suffix|done].
  - by rewrite addMessage_trim.
  - intros Hcap. split; [by apply addMessage_last|].
    rewrite addMessage_trim. simpl. unfold trim, push.
    rewrite length_app. simpl.
    case_bool_decide as Hlen.
    + rewrite slice_limit, slice_last_length, length_app by done. simpl.
      repeat case_bool_decide; lia.
    + rewrite length_app. simpl. case_bool_decide; lia.
  - intros Hcap. rewrite addMessage_trim. simpl. unfold trim, push.
    rewrite bool_decide_true by lia.
    rewrite slice_negative_limit by done.
    split; [done|]. rewrite length_drop, length_app. simpl. lia.
Qed.

(** X13.  With a limit that is not negative, adding a non-empty batch with
    [addMessages] leaves the memory that adding its messages one by one
    with [addMessage] leaves. *)
Theorem addMessages_one_by_one (new : list Message) (self : Memory) :
  new <> [] ->
  (0 <= maxMessages self)%Z ->
  addMessages new self = foldl (fun mem m => addMessage m mem) self new.
Proof.
  intros Hnew Hcap. rewrite addMessages_trim.
  destruct new as [|m new]; [done|]. clear Hnew. simpl.
  rewrite addMessage_trim.
  change (messages self ++ m :: new)%list with (messages self ++ [m] ++ new)%list.
  rewrite app_assoc. fold (push (messages self) m).
  revert Hcap.
  generalize (push (messages self) m). generalize (maxMessages self). intros cap l Hcap.
  revert l. induction new as [|m' new IH]; intros l; simpl.
  - by rewrite app_nil_r.
  - rewrite addMessage_trim. simpl. rewrite trim_push by done.
    rewrite <- IH. unfold push. by rewrite <- app_assoc.
Qed.

(** X14.  [getRecentMessages(n)] returns the end of the log: with [n > 0]
    the last [n] messages, or all of them when there are fewer; with
    [n = 0] it returns every message, not none. *)
Theorem getRecentMessages_is_suffix (n : nat) (self : Memory) :
  getRecentMessages n self `suffix_of` messages self
  /\ length (getRecentMessages n self)
     = (if bool_decide (n = 0) then length (messages self)
        else n `min` length (messages self)).
Proof.
  unfold getRecentMessages. split; [apply slice_last_suffix|apply slice_last_length].
Qed.

Lemma addMessage_keeps_newest_witness :
  (0 <= maxMessages Scenarios2.small_memory)%Z
  /\ messages (addMessage (userMessage "two") (addMessage (userMessage "three")
                 Scenarios2.small_memory))
     = [userMessage "three"; userMessage "two"]
  /\ last (messages (addMessage (userMessage "three") Scenarios2.small_memory))
     = Some (userMessage "three")
  /\ (maxMessages Scenarios2.leaking_memory < 0)%Z
  /\ messages (addMessage (userMessage "two") Scenarios2.leaking_memory)
     = [userMessage "two"].
Proof.
  split; [vm_compute; discriminate|]. split; [reflexivity|].
  destruct (addMessage_keeps_newest (userMessage "three") Scenarios2.small_memory)
    as (_ & _ & Hkeep & _).
  destruct (addMessage_keeps_newest (userMessage "two") Scenarios2.leaking_memory)
    as (_ & _ & _ & Hleak).
  split; [apply Hkeep; vm_compute; discriminate|].
  split; [reflexivity|].
  apply Hleak. reflexivity.
Defined.

Lemma addMessages_one_by_one_witness :
  Scenarios2.two_more <> []
  /\ (0 <= maxMessages Scenarios2.small_memory)%Z
  /\ addMessages Scenarios2.two_more Scenarios2.small_memory
     = mkMemory Scenarios2.two_more 2
  /\ foldl (fun mem m => addMessage m mem) Scenarios2.small_memory Scenarios2.two_more
     = mkMemory Scenarios2.two_more 2.
Proof.
  split; [discriminate|]. split; [vm_compute; discriminate|]. split; [reflexivity|].
  rewrite <- (addMessages_one_by_one Scenarios2.two_more Scenarios2.small_memory);
    [reflexivity|discriminate|vm_compute; discriminate].
Defined.

End MemoryProps.

(** ** Tool results, combined *)

Module ToolMore.
Import JS Tool Claims2.

Lemma val_str_val (x : option string) : val_str (str_val x) = x.
Proof. by destruct x. Qed.

Lemma combineFields_merged (f g : option string) :
  combineFields (str_val f) (str_val g) true = Returned (str_val (merged_field f g)).
Proof. by destruct f as [[|c a]|], g as [[|c' b]|]. Qed.

Lemma combine_merged (r1 r2 : ToolResult) (x1 x2 : option string) :
  output r1 = str_val x1 -> output r2 = str_val x2 ->
  combine r1 r2
  = Returned (mkToolResult (str_val (merged_field x1 x2))
                           (merged_field (error r1) (error r2))
                           (merged_field (system r1) (system r2))).
Proof.
  intros H1 H2. unfold combine. rewrite H1, H2, !combineFields_merged.
  by rewrite !val_str_val.
Qed.

Lemma merged_field_assoc (f g h : option string) :
  merged_field (merged_field f g) h = merged_field f (merged_field g h).
Proof.
  unfold merged_field, str_or, str_truthy.
  destruct f as [[|c1 a]|], g as [[|c2 b]|], h as [[|c3 c]|];
    repeat (simpl; rewrite ?StringFacts.append_cons); try done.
  by rewrite StringFacts.append_assoc.
Qed.

(** X15.  On results whose outputs are texts (or [null]), [combine] is
    associative: combining three of them gives the same result whichever
    pair is combined first, and none of the combinations throws.  It is
    not associative on every output: with the outputs [1], [2] and ["a"]
    one grouping gives ["3a"] and the other ["12a"]. *)
Theorem combine_associative :
  (forall r1 r2 r3 : ToolResult,
      text_output r1 -> text_output r2 -> text_output r3 ->
      exists r12 r23 r,
        combine r1 r2 = Returned r12 /\ combine r2 r3 = Returned r23
        /\ combine r12 r3 = Returned r /\ combine r1 r23 = Returned r)
  /\ (exists r12 r23,
        combine Scenarios2.one Scenarios2.two = Returned r12
        /\ combine Scenarios2.two Scenarios2.letter = Returned r23
        /\ combine r12 Scenarios2.letter = Returned (mkToolResult (JStr "3a") None None)
        /\ combine Scenarios2.one r23 = Returned (mkToolResult (JStr "12a") None None)).
Proof.
  split.
  - intros r1 r2 r3 [x1 H1] [x2 H2] [x3 H3].
    eexists _, _, _.
    split; [by apply combine_merged|]. split; [by apply combine_merged|].
    split; [by apply combine_merged|].
    rewrite (combine_merged _ _ x1 (merged_field x2 x3)) by done.
    simpl. by rewrite !merged_field_assoc.
  - eexists _, _. split; [reflexivity|]. split; [reflexivity|]. split; reflexivity.
Qed.

(** X16.  The empty result [new ToolResult()] is neutral on the left of
    [combine]; on the right it keeps every populated field and turns a
    field that is not populated (the empty string, and for the output also
    [0] and [false]) into [null]. *)
Theorem combine_with_empty (r : ToolResult) :
  combine (mkToolResult JNull None None) r = Returned r
  /\ combine r (mkToolResult JNull None None)
     = Returned (mkToolResult (if truthy (output r) then output r else JNull)
                              (nonempty (error r)) (nonempty (system r))).
Proof.
  destruct r as [o e s]. unfold combine, combineFields, or_else. simpl. split.
  - by rewrite !val_str_val.
  - rewrite !andb_false_r.
    by destruct e as [[|? ?]|], s as [[|? ?]|].
Qed.

Lemma combine_associative_witness :
  text_output (result_of "ab") /\ text_output (ToolFailure "e")
  /\ exists r12 r23 r,
       combine (result_of "ab") (result_of "cd") = Returned r12
       /\ combine (result_of "cd") (ToolFailure "e") = Returned r23
       /\ combine r12 (ToolFailure "e") = Returned r
       /\ combine (result_of "ab") r23 = Returned r.
Proof.
  assert (H1 : text_output (result_of "ab")) by (by exists (Some "ab")).
  assert (H2 : text_output (result_of "cd")) by (by exists (Some "cd")).
  assert (H3 : text_output (ToolFailure "e")) by (by exists None).
  split; [exact H1|]. split; [exact H3|].
  exact (proj1 combine_associative _ _ _ H1 H2 H3).
Defined.

End ToolMore.

(** ** The tool collection *)

Module CollectionProps.
Import JS Tool Collection.

Section WithState.
Context {W : Type}.
Implicit Types (t : BaseTool W) (ts : list (BaseTool W)) (m : gmap string (BaseTool W)).

Lemma last_filter_cons (P : BaseTool W -> Prop) `{forall t, Decision (P t)} t ts :
  last (filter P (t :: ts))
  = match last (filter P ts) with
    | Some t' => Some t'
    | None => if decide (P t) then Some t else None
    end.
Proof.
  rewrite filter_cons. destruct (decide (P t)); [|by destruct (last _)].
  destruct (filter P ts) as [|t' l]; [done|]. rewrite last_cons.
  by destruct (last (t' :: l)).
Qed.

Lemma lookup_fold_insert ts m (name : string) :
  foldl (fun m t => <[tool_name t := t]> m) m ts !! name
  = match last (filter (fun t => tool_name t = name) ts) with
    | Some t => Some t
    | None => m !! name
    end.
Proof.
  revert m. induction ts as [|t ts IH]; intros m; [done|].
  simpl foldl. rewrite IH, last_filter_cons.
  destruct (last (filter _ ts)); [done|].
  destruct (decide (tool_name t = name)) as [<-|Hne].
  - by rewrite lookup_insert_eq.
  - by rewrite lookup_insert_ne.
Qed.

(** X17.  In a collection built from a list of tools, [getTool(name)]
    finds the last tool of the list that has this name (a later tool
    replaces an earlier one of the same name), and nothing when no tool has
    it. *)
Theorem getTool_finds_last ts (name : string) :
  getTool name (new_ToolCollection ts)
  = last (filter (fun t => tool_name t = name) ts).
Proof.
  unfold getTool, new_ToolCollection. simpl. rewrite lookup_fold_insert.
  rewrite lookup_empty. by destruct (last _).
Qed.

Lemma addTool_new t ts :
  addTool t (new_ToolCollection ts) = new_ToolCollection (ts ++ [t]).
Proof. unfold addTool, new_ToolCollection, push. simpl. by rewrite foldl_app. Qed.

(** X18.  Adding tools to a collection after its construction gives the
    collection that is constructed from all the tools at once: the same
    list of advertised tools and the same lookup table. *)
Theorem addTools_extends_construction ts us :
  addTools us (new_ToolCollection ts) = new_ToolCollection (ts ++ us).
Proof.
  revert ts. induction us as [|u us IH]; intros ts.
  - by rewrite app_nil_r.
  - unfold addTools in *. simpl. rewrite addTool_new, IH.
    by rewrite <- app_assoc.
Qed.

End WithState.

End CollectionProps.

(** ** The agent loop, further *)

Module AgentMore.
Import JS Schema Agent Claims.
Import AgentProps.

Section Base.
Context {E : Type}.
Implicit Types (self a : BaseAgent E).

(** X19.  [run] gives the agent back in the state it found it in,
    whether it returns or throws: after a run from [IDLE] the state is
    [IDLE], so a [FINISHED] set by a step is never seen by the caller, and
    the agent can be run again. *)
Theorem run_gives_back_state step fuel (request : option string) self self'
    (o : outcome string) :
  state self = IDLE ->
  run step fuel request self = Some (self', o) ->
  state self' = IDLE /\ state self' <> FINISHED /\ state self' <> ERROR.
Proof.
  intros Hidle Hrun. apply run_restores_state in Hrun.
  rewrite Hrun, Hidle. done.
Qed.

Lemma check_stuck_state a : state (check_stuck a) = state a.
Proof. unfold check_stuck. by destruct (isStuck a). Qed.





End Base.

Lemma run_gives_back_state_witness :
  state (Scenarios.toolcall_agent ToolCallAgent.auto [Collection.Terminate]) = IDLE
  /\ exists self' o,
       run (ToolCallAgent.step Scenarios.eager_model Scenarios.parse_empty_object
              ascii_toLowerCase) 3 None
           (Scenarios.toolcall_agent ToolCallAgent.auto [Collection.Terminate])
       = Some (self', o)
       /\ state self' = IDLE /\ state self' <> FINISHED /\ state self' <> ERROR.
Proof.
  split; [reflexivity|].
  eexists _, _. split; [vm_compute; reflexivity|].
  refine (run_gives_back_state
            (ToolCallAgent.step Scenarios.eager_model Scenarios.parse_empty_object
               ascii_toLowerCase) 3 None
            (Scenarios.toolcall_agent ToolCallAgent.auto [Collection.Terminate]) _ _ _ _).
  - reflexivity.
  - vm_compute. reflexivity.
Defined.


End AgentMore.

(** ** The tool-calling agent, further *)

Module ToolCallMore.
Import JS Tool Schema Agent Collection ToolCallAgent Claims Claims2.
Import ToolCallProps.

Section WithBoundary.
Context {W : Type}.
Variable askTool :
  list Message -> option (list Message) -> list (string * string) -> ToolChoice
  -> outcome Response.
Variable JSON_parse : string -> option jsval.
Variable toLowerCase : string -> string.
Implicit Types (self : BaseAgent (Fields W)).

Lemma prompted_ext self : ext (prompted self) = ext self.
Proof. unfold prompted. by destruct (nonempty _). Qed.

Lemma prompted_state self : state (prompted self) = state self.
Proof. unfold prompted. by destruct (nonempty _). Qed.

Lemma prompted_limit self :
  maxMessages (memory (prompted self)) = maxMessages (memory self).
Proof. unfold prompted. by destruct (nonempty _). Qed.

Lemma add_message_last m self :
  (0 <= maxMessages (memory self))%Z ->
  last (messages (memory (add_message m self))) = Some m.
Proof. intros Hcap. unfold add_message. simpl. by apply MemoryProps.addMessage_last. Qed.

Lemma add_message_limit m self :
  maxMessages (memory (add_message m self)) = maxMessages (memory self).
Proof. unfold add_message. simpl. by rewrite MemoryProps.addMessage_trim. Qed.

(** [think] on a response of the model. *)
Lemma think_response self tools response :
  availableTools (ext self) = Some tools ->
  (forall msgs sys ps c, askTool msgs sys ps c = Returned response) ->
  exists self',
    think askTool self = (self', Returned (think_answer (toolChoices (ext self)) response))
    /\ toolCalls (ext self') = default [] (resp_tool_calls response)
    /\ toolChoices (ext self') = toolChoices (ext self)
    /\ availableTools (ext self') = availableTools (ext self)
    /\ state self' = state self
    /\ (toolChoices (ext self) <> none ->
        memory self' = addMessage (recorded_message response) (memory (prompted self))
        /\ ((0 <= maxMessages (memory self))%Z ->
            last (messages (memory self')) = Some (recorded_message response))).
Proof.
  intros Htools Hask. unfold think. fold (prompted self).
  pose proof (prompted_ext self) as Hext. pose proof (prompted_state self) as Hstate.
  pose proof (prompted_limit self) as Hlimit.
  unfold think_try. rewrite Hext, Htools, Hask. simpl.
  rewrite Hext. unfold think_answer, recorded_message.
  set (calls := default [] (resp_tool_calls response)).
  destruct (toolChoices (ext self)) eqn:Hchoice; simpl.
  - destruct (str_truthy (resp_content response)); eexists; split_and!; try done;
      simpl; by rewrite ?Hext.
  - destruct calls as [|c cs] eqn:Hcalls; simpl;
      (eexists; split; [reflexivity|]); simpl; rewrite ?Hext, ?Htools;
      split_and!; try done; intros _; (split; [done|]); intros Hcap;
      apply add_message_last; simpl; by rewrite Hlimit.
  - destruct calls as [|c cs] eqn:Hcalls; simpl;
      (eexists; split; [reflexivity|]); simpl; rewrite ?Hext, ?Htools;
      split_and!; try done; intros _; (split; [done|]); intros Hcap;
      apply add_message_last; simpl; by rewrite Hlimit.
Qed.

(** X21.  [think] answers by the policy: under [none] whether the response
    has text, under [required] always [true], under [auto] whether it
    proposes a tool call or has text.  It keeps the proposed calls in
    [toolCalls], and under [auto] and [required] it adds to the memory the
    assistant message of the response, carrying the calls when there are
    any: in a memory whose limit is not negative that message is then the
    last one. *)
Theorem think_answers_by_policy self tools response :
  availableTools (ext self) = Some tools ->
  (forall msgs sys ps c, askTool msgs sys ps c = Returned response) ->
  exists self',
    think askTool self = (self', Returned (think_answer (toolChoices (ext self)) response))
    /\ toolCalls (ext self') = default [] (resp_tool_calls response)
    /\ toolChoices (ext self') = toolChoices (ext self)
    /\ availableTools (ext self') = availableTools (ext self)
    /\ state self' = state self
    /\ (toolChoices (ext self) <> none ->
        memory self' = addMessage (recorded_message response) (memory (prompted self))
        /\ ((0 <= maxMessages (memory self))%Z ->
            last (messages (memory self')) = Some (recorded_message response))).
Proof. apply think_response. Qed.

(** X22.  Under [required], a response that proposes no tool call makes
    the step fail: [think] answers [true] and [act] throws the error
    [Tool calls required but none provided]. *)
Theorem required_without_calls_throws self tools response :
  availableTools (ext self) = Some tools ->
  toolChoices (ext self) = required ->
  (forall msgs sys ps c, askTool msgs sys ps c = Returned response) ->
  default [] (resp_tool_calls response) = [] ->
  exists self',
    think askTool self = (self', Returned true)
    /\ step askTool JSON_parse toLowerCase self
       = (self', Thrown (mkError PlainError TOOL_CALL_REQUIRED)).
Proof.
  intros Htools Hreq Hask Hcalls.
  destruct (think_response self tools response Htools Hask)
    as (self' & Hthink & Htc & Hchoice & _).
  rewrite Hreq in Hthink, Hchoice. simpl in Hthink.
  exists self'. split; [done|].
  unfold step, react_step. rewrite Hthink. simpl.
  unfold act. rewrite Htc, Hcalls, Hchoice. done.
Qed.

(** X23.  [think] never throws.  When the model boundary throws, [think]
    answers [false], leaves the fields of the tool-calling agent as they
    are, and adds to the memory an assistant message that quotes the
    error: in a memory whose limit is not negative it is then the last
    message. *)
Theorem think_contains_failures self :
  (exists self' b, think askTool self = (self', Returned b))
  /\ forall tools e,
       availableTools (ext self) = Some tools ->
       (forall msgs sys ps c, askTool msgs sys ps c = Thrown e) ->
       let quoted :=
         assistantMessage
           (Some ("Error encountered while processing: "
                  ++ default (error_toString e) (nonempty (Some (err_message e))))) in
       exists self',
         think askTool self = (self', Returned false)
         /\ ext self' = ext self
         /\ memory self' = addMessage quoted (memory (prompted self))
         /\ ((0 <= maxMessages (memory self))%Z ->
             last (messages (memory self')) = Some quoted).
Proof.
  split.
  - unfold think. fold (prompted self).
    destruct (think_try askTool (prompted self)) as [a [b|e]]; eauto.
  - intros tools e Htools Hask quoted. unfold think. fold (prompted self).
    unfold think_try. rewrite prompted_ext, Htools, Hask.
    eexists. split; [reflexivity|]. split; [simpl; apply prompted_ext|].
    split; [done|]. intros Hcap. apply add_message_last. by rewrite prompted_limit.
Qed.

(** X24.  An agent whose [availableTools] was never assigned, which is how
    the constructor leaves it, is inert: whatever the model would answer,
    its step is the same, returns [Thinking complete - no action needed],
    executes no tool and leaves the state of the agent alone. *)
Theorem unassigned_tools_make_agent_inert
    (otherModel : list Message -> option (list Message) -> list (string * string)
                  -> ToolChoice -> outcome Response) self :
  availableTools (ext self) = None ->
  step askTool JSON_parse toLowerCase self = step otherModel JSON_parse toLowerCase self
  /\ (step askTool JSON_parse toLowerCase self).2
     = Returned "Thinking complete - no action needed"
  /\ ext (step askTool JSON_parse toLowerCase self).1 = ext self
  /\ state (step askTool JSON_parse toLowerCase self).1 = state self.
Proof.
  intros Hnone. unfold step, react_step, think. fold (prompted self).
  unfold think_try. rewrite prompted_ext, Hnone. simpl.
  split_and!; try done; [apply prompted_ext|apply prompted_state].
Qed.

(** *** [executeTool] *)

(** The [try] block of [executeTool] leaves the tools, the calls and the
    memory of the agent alone. *)
Lemma executeTool_try_frame name (command : ToolCall) tools self :
  let self' := (executeTool_try JSON_parse toLowerCase name command tools self).1 in
  availableTools (ext self') = availableTools (ext self)
  /\ toolCalls (ext self') = toolCalls (ext self)
  /\ memory self' = memory self.
Proof.
  unfold executeTool_try.
  destruct (JSON_parse _); [|done].
  destruct (execute _ _ _ _) as [w result].
  destruct (read_output result) as [out|e]; [|done]. simpl.
  unfold handleSpecialTool. by destruct (negb _).
Qed.

(** X25.  With [availableTools] assigned, [executeTool] never throws, and
    it reports what it cannot dispatch as a string, leaving the agent and
    the tools as they are: a call without a name, a call to a tool that is
    not in the collection, and arguments that are not JSON. *)
Theorem executeTool_reports_errors (command : ToolCall) self tools :
  availableTools (ext self) = Some tools ->
  (exists self' s, executeTool JSON_parse toLowerCase command self = (self', Returned s))
  /\ (fn_name (function command) = EmptyString ->
      executeTool JSON_parse toLowerCase command self
      = (self, Returned "Error: Invalid command format"))
  /\ (fn_name (function command) <> EmptyString ->
      getTool (fn_name (function command)) tools = None ->
      executeTool JSON_parse toLowerCase command self
      = (self, Returned ("Error: Unknown tool '" ++ fn_name (function command) ++ "'")))
  /\ (fn_name (function command) <> EmptyString ->
      is_Some (getTool (fn_name (function command)) tools) ->
      JSON_parse (default "{}" (nonempty (Some (arguments (function command))))) = None ->
      executeTool JSON_parse toLowerCase command self
      = (self, Returned ("Error parsing arguments for " ++ fn_name (function command)
                         ++ ": Invalid JSON format"))).
Proof.
  intros Htools. unfold executeTool. rewrite Htools.
  split_and!.
  - destruct (nonempty _) as [name|]; [|eauto].
    destruct (getTool _ tools); [|eauto].
    destruct (executeTool_try _ _ _ _ _ _) as [a [r|e]]; [eauto|].
    case_bool_decide; eauto.
  - intros ->. done.
  - intros Hname Hget.
    assert (nonempty (Some (fn_name (function command))) = Some (fn_name (function command)))
      as -> by (by apply PlanningProps.nonempty_Some).
    by rewrite Hget.
  - intros Hname [t Hget] Hparse.
    assert (nonempty (Some (fn_name (function command))) = Some (fn_name (function command)))
      as -> by (by apply PlanningProps.nonempty_Some).
    rewrite Hget. unfold executeTool_try. by rewrite Hparse.
Qed.


(** *** [act] *)

(** What [executeTool] leaves alone when the tools are assigned. *)
Lemma executeTool_frame (command : ToolCall) self tools :
  availableTools (ext self) = Some tools ->
  exists self' s,
    executeTool JSON_parse toLowerCase command self = (self', Returned s)
    /\ availableTools (ext self') = Some tools
    /\ toolCalls (ext self') = toolCalls (ext self)
    /\ memory self' = memory self.
Proof.
  intros Htools. unfold executeTool. rewrite Htools.
  destruct (nonempty _) as [name|]; [|by eexists _, _; split_and!].
  destruct (getTool _ tools); [|by eexists _, _; split_and!].
  destruct (executeTool_try_frame name command tools self) as (Ha & Htc & Hm).
  destruct (executeTool_try _ _ _ _ _ _) as [a [r|e]]; simpl in *.
  - eexists _, _. split; [reflexivity|]. by rewrite Ha, Htools.
  - case_bool_decide; (eexists _, _; split; [reflexivity|]); by rewrite Ha, Htools.
Qed.

Lemma act_loop_runs_all (commands : list ToolCall) (results : list string) self tools :
  availableTools (ext self) = Some tools ->
  exists self' rs,
    act_loop JSON_parse toLowerCase commands results self
    = (self', Returned (results ++ rs)%list)
    /\ executed_in_turn JSON_parse toLowerCase commands self self' rs
    /\ length rs = length commands
    /\ toolCalls (ext self') = toolCalls (ext self)
    /\ maxMessages (memory self') = maxMessages (memory self)
    /\ forall c, (0 <= maxMessages (memory self))%Z -> last commands = Some c ->
         exists r, last rs = Some r
           /\ last (messages (memory self'))
              = Some (toolMessage r (fn_name (function c)) (id c)).
Proof.
  revert results self. induction commands as [|c cs IH]; intros results self Htools.
  - exists self, []. simpl. rewrite app_nil_r. split_and!; try done. constructor.
  - simpl act_loop.
    destruct (executeTool_frame c self tools Htools) as (a & r & Hexec & Ha & Htc & Hmem).
    rewrite Hexec.
    set (a2 := add_message (toolMessage r (fn_name (function c)) (id c)) a).
    assert (Hlimit : maxMessages (memory a2) = maxMessages (memory self)).
    { subst a2. by rewrite add_message_limit, Hmem. }
    destruct (IH (push results r) a2)
      as (self' & rs & Hloop & Hturn & Hlen & Htc' & Hlim' & Hlast); [done|].
    rewrite Hloop.
    exists self', (r :: rs). unfold push. rewrite <- app_assoc. simpl.
    split; [done|]. split; [by econstructor|].
    split; [by rewrite Hlen|]. split; [by rewrite Htc'|].
    split; [by rewrite Hlim'|].
    intros c0 Hcap Hc0. destruct cs as [|c' cs'].
    + simpl in Hc0. injection Hc0 as <-. destruct rs; [|done].
      exists r. split; [done|].
      simpl in Hloop. injection Hloop as <- _. subst a2.
      apply add_message_last. by rewrite Hmem.
    + rewrite last_cons in Hc0.
      destruct (last (c' :: cs')) as [cl|] eqn:Hcl; [|by apply last_None in Hcl].
      injection Hc0 as <-.
      destruct (Hlast cl) as (rl & Hrl & Hmsg); [by rewrite Hlimit|done|].
      exists rl. split; [|done]. rewrite last_cons. by rewrite Hrl.
Qed.

(** X27.  With [availableTools] assigned, [act] executes every proposed
    tool call, in the order proposed and without stopping early: each call
    goes through [executeTool] on the agent the call before it left, is
    answered by its tool message in the memory, and contributes its
    result; [act] does not throw, its result joins the results with blank
    lines, and the calls stay in [toolCalls].  In a memory whose limit is
    not negative the last message is then the tool message that answers
    the last call under its id. *)
Theorem act_runs_every_call self tools :
  availableTools (ext self) = Some tools ->
  toolCalls (ext self) <> [] ->
  exists self' rs,
    act JSON_parse toLowerCase self = (self', Returned (String.concat (nl ++ nl) rs))
    /\ executed_in_turn JSON_parse toLowerCase (toolCalls (ext self)) self self' rs
    /\ length rs = length (toolCalls (ext self))
    /\ toolCalls (ext self') = toolCalls (ext self)
    /\ ((0 <= maxMessages (memory self))%Z ->
        exists c r, last (toolCalls (ext self)) = Some c /\ last rs = Some r
          /\ last (messages (memory self'))
             = Some (toolMessage r (fn_name (function c)) (id c))).
Proof.
  intros Htools Hcalls. unfold act.
  rewrite bool_decide_false by (by destruct (toolCalls (ext self))).
  destruct (act_loop_runs_all (toolCalls (ext self)) [] self tools Htools)
    as (self' & rs & -> & Hturn & Hlen & Htc & _ & Hlast).
  exists self', rs. split; [done|]. split; [done|]. split; [done|]. split; [done|].
  intros Hcap.
  destruct (last (toolCalls (ext self))) as [c|] eqn:Hc.
  - destruct (Hlast c Hcap eq_refl) as (r & Hr & Hmsg). by exists c, r.
  - apply last_None in Hc. done.
Qed.

(** *** [run] *)


End WithBoundary.

Lemma think_answers_by_policy_witness :
  exists self',
    think Scenarios.eager_model (Scenarios.toolcall_agent auto [Terminate])
    = (self', Returned true)
    /\ toolCalls (ext self') = [Scenarios.terminate_call]
    /\ state self' = IDLE
    /\ last (messages (memory self'))
       = Some (fromToolCalls [Scenarios.terminate_call] (Some "Done.")).
Proof.
  destruct (think_answers_by_policy Scenarios.eager_model
              (Scenarios.toolcall_agent auto [Terminate])
              (new_ToolCollection [Terminate])
              (mkResponse (Some "Done.") (Some [Scenarios.terminate_call])))
    as (self' & Hthink & Hcalls & _ & _ & Hstate & Hrecorded).
  - reflexivity.
  - intros msgs sys ps c. reflexivity.
  - exists self'. split; [exact Hthink|]. split; [exact Hcalls|]. split; [exact Hstate|].
    destruct Hrecorded as [_ Hlast]; [discriminate|].
    apply Hlast. vm_compute. discriminate.
Defined.

Lemma required_without_calls_throws_witness :
  exists self',
    step Scenarios.text_only_model Scenarios.parse_empty_object ascii_toLowerCase
         (Scenarios.toolcall_agent required [])
    = (self', Thrown (mkError PlainError TOOL_CALL_REQUIRED)).
Proof.
  destruct (required_without_calls_throws Scenarios.text_only_model
              Scenarios.parse_empty_object ascii_toLowerCase
              (Scenarios.toolcall_agent required [])
              (new_ToolCollection [])
              (mkResponse (Some "I can answer without tools.") None))
    as (self' & _ & Hstep).
  - reflexivity.
  - reflexivity.
  - intros msgs sys ps c. reflexivity.
  - reflexivity.
  - exists self'. exact Hstep.
Defined.

Lemma think_contains_failures_witness :
  exists self',
    think Scenarios2.failing_model (Scenarios.toolcall_agent auto [Terminate])
    = (self', Returned false)
    /\ ext self' = ext (Scenarios.toolcall_agent auto [Terminate])
    /\ last (messages (memory self'))
       = Some (assistantMessage
                 (Some "Error encountered while processing: LLM API request failed: 500 - unavailable")).
Proof.
  destruct (think_contains_failures Scenarios2.failing_model
              (Scenarios.toolcall_agent auto [Terminate])) as [_ Hfail].
  destruct (Hfail (new_ToolCollection [Terminate])
                  (mkError PlainError "LLM API request failed: 500 - unavailable"))
    as (self' & Hthink & Hext & _ & Hlast).
  - reflexivity.
  - intros msgs sys ps c. reflexivity.
  - exists self'. split; [exact Hthink|]. split; [exact Hext|].
    apply Hlast. vm_compute. discriminate.
Defined.

Lemma unassigned_tools_make_agent_inert_witness :
  step Scenarios.eager_model Scenarios.parse_empty_object ascii_toLowerCase
       Scenarios2.bare_agent
  = step Scenarios.text_only_model Scenarios.parse_empty_object ascii_toLowerCase
         Scenarios2.bare_agent
  /\ (step Scenarios.eager_model Scenarios.parse_empty_object ascii_toLowerCase
           Scenarios2.bare_agent).2
     = Returned "Thinking complete - no action needed".
Proof.
  destruct (unassigned_tools_make_agent_inert Scenarios.eager_model
              Scenarios.parse_empty_object ascii_toLowerCase Scenarios.text_only_model
              Scenarios2.bare_agent) as (Hsame & Hout & _).
  - reflexivity.
  - split; [exact Hsame|exact Hout].
Defined.

Lemma executeTool_reports_errors_witness :
  executeTool Scenarios.parse_empty_object ascii_toLowerCase Scenarios2.search_call
              (Scenarios.toolcall_agent auto [Terminate])
  = (Scenarios.toolcall_agent auto [Terminate], Returned "Error: Unknown tool 'search'").
Proof.
  destruct (executeTool_reports_errors Scenarios.parse_empty_object ascii_toLowerCase
              Scenarios2.search_call (Scenarios.toolcall_agent auto [Terminate])
              (new_ToolCollection [Terminate])) as (_ & _ & Hunknown & _).
  - reflexivity.
  - apply Hunknown; [discriminate|vm_compute; reflexivity].
Defined.


Lemma act_runs_every_call_witness :
  exists self' rs,
    act Scenarios.parse_empty_object ascii_toLowerCase Scenarios2.ready_agent
    = (self', Returned (String.concat (nl ++ nl) rs))
    /\ executed_in_turn Scenarios.parse_empty_object ascii_toLowerCase
         [Scenarios.terminate_call; Scenarios2.search_call] Scenarios2.ready_agent self' rs
    /\ length rs = 2.
Proof.
  destruct (act_runs_every_call Scenarios.parse_empty_object ascii_toLowerCase
              Scenarios2.ready_agent (new_ToolCollection [Terminate]))
    as (self' & rs & Hact & Hturn & Hlen & _).
  - reflexivity.
  - discriminate.
  - exists self', rs. split; [exact Hact|]. split; [exact Hturn|exact Hlen].
Defined.


End ToolCallMore.

(** ** [mergeMessages] *)

Module HelpersProps.
Import JS Schema Helpers Claims2.
Local Open Scope list_scope.

Lemma nonempty_idemp (x : option string) : nonempty (nonempty x) = nonempty x.
Proof.
  destruct x as [s|]; [|done]. simpl.
  destruct (String.eqb_spec s EmptyString) as [->|Hne]; [done|].
  simpl. by destruct (String.eqb_spec s EmptyString).
Qed.

Lemma starts_new_false (cur m : Message) : starts_new cur m = false <-> mergeable cur m.
Proof.
  unfold starts_new, mergeable. rewrite !orb_false_iff, negb_false_iff.
  rewrite bool_decide_eq_true, !bool_decide_eq_false, <- !eq_None_not_Some. naive_solver.
Qed.

Lemma separated_app_l (l1 l2 : list Message) : separated (l1 ++ l2) -> separated l1.
Proof.
  induction l1 as [|m1 [|m2 l1] IH]; simpl; try done.
  intros [Hm Hs]. split; [done|]. by apply IH.
Qed.

Lemma separated_snoc (l : list Message) (x : Message) :
  separated (l ++ [x])
  <-> separated l /\ match last l with Some c => ~ mergeable c x | None => True end.
Proof.
  induction l as [|m1 [|m2 l] IH]; simpl in *; [naive_solver|naive_solver|].
  rewrite IH. destruct l; simpl; naive_solver.
Qed.

Lemma replace_last_snoc {A} (l : list A) (c x : A) : replace_last x (l ++ [c]) = l ++ [x].
Proof.
  unfold replace_last. rewrite length_app. simpl.
  replace (length l + 1 - 1) with (length l) by lia. by rewrite take_app_length.
Qed.

Lemma fresh_constructed (m : Message) :
  constructed (new_Message (role m) (content m) (tool_calls m) (name m) (tool_call_id m)).
Proof. split; simpl; by rewrite nonempty_idemp. Qed.

Lemma fresh_same (m : Message) :
  constructed m ->
  new_Message (role m) (content m) (tool_calls m) (name m) (tool_call_id m) = m.
Proof. intros [Hn Hi]. unfold new_Message. rewrite <- Hn, <- Hi. by destruct m. Qed.

Lemma loop_settled (messages result : list Message) :
  settled result -> settled (mergeMessages_loop messages result).
Proof.
  revert result. induction messages as [|m ms IH]; intros result [Hsep Hall]; [done|].
  simpl. destruct (last result) as [cur|] eqn:Hlast.
  - apply last_Some in Hlast as [l ->].
    destruct (starts_new cur m) eqn:Hnew.
    + apply IH. split.
      * unfold push. apply separated_snoc. split; [done|]. rewrite last_snoc.
        intros (Hr & Hc & Hf).
        assert (Hfalse : starts_new cur m = false) by (by apply starts_new_false).
        congruence.
      * unfold push. apply Forall_app. split; [done|].
        apply Forall_singleton, fresh_constructed.
    + apply IH. rewrite replace_last_snoc. split.
      * apply separated_snoc. apply separated_snoc in Hsep as [Hl Hc].
        split; [done|]. destruct (last l); [|done].
        intros (Hr & Ht1 & Ht2). apply Hc. split; [done|]. split; done.
      * apply Forall_app in Hall as [Hl Hc]. apply Forall_app. split; [done|].
        rewrite Forall_singleton in Hc |- *. exact Hc.
  - apply IH. apply last_None in Hlast as ->. split; [done|].
    apply Forall_singleton, fresh_constructed.
Qed.

Lemma loop_fixed (messages result : list Message) :
  settled (result ++ messages) -> mergeMessages_loop messages result = result ++ messages.
Proof.
  revert result. induction messages as [|m ms IH]; intros result [Hsep Hall].
  - by rewrite app_nil_r.
  - simpl.
    assert (Hm : constructed m).
    { apply Forall_app in Hall as [_ Hall]. by apply Forall_cons in Hall as [? _]. }
    rewrite fresh_same by done.
    assert (Hcons : result ++ m :: ms = (result ++ [m]) ++ ms) by (by rewrite <- app_assoc).
    rewrite Hcons in Hsep, Hall.
    assert (Hnext : mergeMessages_loop ms (push result m) = result ++ m :: ms).
    { unfold push. rewrite IH by done. by rewrite <- app_assoc. }
    destruct (last result) as [cur|] eqn:Hlast; [|done].
    destruct (starts_new cur m) eqn:Hnew; [done|].
    apply starts_new_false in Hnew.
    apply separated_app_l, separated_snoc in Hsep as [_ Hc].
    rewrite Hlast in Hc. done.
Qed.

Lemma loop_length (messages result : list Message) :
  length (mergeMessages_loop messages result) <= length result + length messages.
Proof.
  revert result. induction messages as [|m ms IH]; intros result; simpl; [lia|].
  destruct (last result) as [cur|] eqn:Hlast.
  - apply last_Some in Hlast as [l ->].
    destruct (starts_new cur m).
    + etrans; [apply IH|]. unfold push. rewrite !length_app. simpl. lia.
    + etrans; [apply IH|]. rewrite replace_last_snoc, !length_app. simpl. lia.
  - etrans; [apply IH|]. unfold push. rewrite !length_app. simpl. lia.
Qed.

(** X29.  [mergeMessages] leaves no two neighbouring messages of the same
    role without tool calls, never returns more messages than it was
    given, and merging its result again changes nothing. *)
Theorem mergeMessages_settles (messages : list Message) :
  separated (mergeMessages messages)
  /\ length (mergeMessages messages) <= length messages
  /\ mergeMessages (mergeMessages messages) = mergeMessages messages.
Proof.
  assert (Hs : settled (mergeMessages messages)) by (by apply loop_settled).
  split; [apply Hs|]. split; [apply (loop_length messages [])|].
  unfold mergeMessages at 1. by rewrite loop_fixed.
Qed.

End HelpersProps.

(** ** The executors of a planning flow *)

Module FlowProps.
Import JS Flow.
Local Open Scope list_scope.

Section WithAgents.
Context {A : Type}.
Implicit Types (l : list A) (m : gmap string A) (es : list (string * A)).

(** The key of the [i]-th agent of an array. *)
Lemma array_key_inj (i j : nat) :
  ("agent_" ++ pretty i)%string = ("agent_" ++ pretty j)%string -> i = j.
Proof. intros H. apply (inj (String.append "agent_")) in H. by apply (inj pretty) in H. Qed.

Lemma array_entries_lookup l (n : nat) m (j : nat) :
  foldl (fun m e => <[e.1 := e.2]> m) m
        (imap (fun i agent => (("agent_" ++ pretty (n + i))%string, agent)) l)
  !! ("agent_" ++ pretty j)%string
  = if bool_decide (n <= j < n + length l) then l !! (j - n)
    else m !! ("agent_" ++ pretty j)%string.
Proof.
  revert n m. induction l as [|a l IH]; intros n m.
  - simpl. rewrite bool_decide_false by lia. done.
  - rewrite imap_cons. simpl foldl.
    rewrite (imap_ext _ (fun i agent => (("agent_" ++ pretty (S n + i))%string, agent)))
      by (intros i x _; simpl; do 3 f_equal; lia).
    rewrite IH. simpl length.
    destruct (decide (j = n)) as [->|Hne].
    + rewrite bool_decide_false by lia. rewrite bool_decide_true by lia.
      replace (n + 0) with n by lia. rewrite lookup_insert_eq.
      by replace (n - n) with 0 by lia.
    + replace (n + 0) with n by lia.
      rewrite lookup_insert_ne by (intros H%array_key_inj; lia).
      case_bool_decide as H1; case_bool_decide as H2; try lia; [|done].
      replace (j - n) with (S (j - S n)) by lia. done.
Qed.

Lemma keys_fold_head es (k : string) (ks : list string) :
  head (foldl (fun ks e => if bool_decide (e.1 ∈ ks) then ks else push ks e.1) (k :: ks) es)
  = Some k.
Proof.
  revert ks. induction es as [|e es IH]; intros ks; [done|].
  simpl. case_bool_decide; [apply IH|]. unfold push. simpl. apply IH.
Qed.

(** X30.  In a planning flow built from a non-empty array of agents
    without a list of executors, the [i]-th agent is registered as
    [agent_i], and [getExecutor] never throws: it returns the agent
    registered under the step type when there is one, and the first agent
    of the array otherwise, whatever primary agent was configured. *)
Theorem array_flow_executor (a0 : A) (rest : list A)
    (config_primaryAgentKey stepType : option string) :
  let flow := new_PlanningFlow (AgentArray (a0 :: rest)) config_primaryAgentKey None in
  (forall i : nat, getAgent ("agent_" ++ pretty i)%string (base flow) = (a0 :: rest) !! i)
  /\ getExecutor stepType flow
     = Returned (default a0 (nonempty stepType ≫= fun key => getAgent key (base flow)))
  /\ new_PlanningFlow (AgentArray (a0 :: rest)) config_primaryAgentKey (Some []) = flow.
Proof.
  intros flow.
  assert (Hlookup : forall i : nat,
            getAgent ("agent_" ++ pretty i)%string (base flow) = (a0 :: rest) !! i).
  { intros i. unfold getAgent, flow, new_PlanningFlow, new_BaseFlow, map_of. simpl agents.
    unfold entries_of.
    pose proof (array_entries_lookup (a0 :: rest) 0 ∅ i) as H. simpl in H.
    simpl. rewrite H. rewrite lookup_empty.
    case_bool_decide as Hi; [by rewrite Nat.sub_0_r|].
    symmetry. apply lookup_ge_None. simpl. lia. }
  split; [done|]. split; [|done].
  unfold getExecutor. fold (getAgent (A:=A)).
  change (fun key => agents (base flow) !! key) with (fun key => getAgent key (base flow)).
  destruct (nonempty stepType ≫= fun key => getAgent key (base flow)) as [a|]; [done|].
  simpl default.
  assert (Hhead : head (executorKeys flow) = Some ("agent_" ++ pretty 0)%string).
  { unfold flow, new_PlanningFlow, new_BaseFlow, keys_of, entries_of.
    cbn [default length bool_decide decide_rel base agent_keys executorKeys].
    rewrite bool_decide_true by done.
    rewrite imap_cons. cbn [foldl fst].
    rewrite bool_decide_false by apply not_elem_of_nil.
    apply keys_fold_head. }
  destruct (executorKeys flow) as [|k ks] eqn:Hks; [done|]. injection Hhead as ->.
  unfold first_executor. rewrite Hks.
  pose proof (Hlookup 0) as H0. unfold getAgent in H0.
  change ((a0 :: rest) !! 0) with (Some a0) in H0.
  cbn [list_find]. rewrite decide_True by (by rewrite H0).
  cbn [fmap option_fmap option_map mbind option_bind snd]. by rewrite H0.
Qed.

End WithAgents.

End FlowProps.
